(** * Foto-Owl library-lending backend: model of the request handlers

    A shallow embedding of [app/models.py], [app/schemas.py], [app/crud.py],
    [app/auth.py], [app/routers/admin.py] and [app/routers/user.py].

    The SQLAlchemy session is modelled as a record of three tables (lists of
    rows, in insertion order, so that [.first()] is the first matching row).
    A handler is a computation in a state-and-exception monad over that
    session: a Python [raise] becomes [Raise], and the session a handler
    leaves behind is returned next to its outcome, also when it raises. *)

From Stdlib Require Import ZArith String List Bool Lia DecimalString DecimalZ.
From stdpp Require Import base decidable option list gmap strings.

Local Open Scope string_scope.
Local Open Scope Z_scope.

(** ** Exceptions and the handler monad *)

(** The exceptions the handlers and the libraries they call can raise.
    [HTTPException] is the only one the handlers raise themselves. *)
Inductive exn : Type :=
| HTTPException (status_code : Z) (detail : string)
| JWTError
| ExpiredSignatureError
| JWTClaimsError
| TypeError
| ValueError
| OverflowError
| UnknownHashError
| IntegrityError
| DBAPIError.

(** [ExpiredSignatureError] and [JWTClaimsError] are subclasses of [JWTError],
    so [except JWTError] catches the three of them. *)
Definition is_JWTError (e : exn) : bool :=
  match e with
  | JWTError | ExpiredSignatureError | JWTClaimsError => true
  | _ => false
  end.

Inductive outcome (A : Type) : Type :=
| Return (a : A)
| Raise (e : exn).
Arguments Return {A} a.
Arguments Raise {A} e.

#[global] Instance outcome_ret : MRet outcome := λ A a, Return a.

#[global] Instance outcome_bind : MBind outcome := λ A B k m,
  match m with
  | Return a => k a
  | Raise e => Raise e
  end.

(** ** app/models.py *)

Module models.

Module User.
Record t : Type := make
  { id : Z; email : string; password : string; is_admin : bool }.
End User.

Module Book.
Record t : Type := make
  { id : Z; title : string; author : string; copies : Z }.
End Book.

Module BorrowRequest.
Record t : Type := make
  { id : Z; user_id : Z; book_id : Z;
    start_date : Z; end_date : Z; status : string }.
End BorrowRequest.

End models.

(** ** app/schemas.py (the request bodies) *)

Module schemas.

Module UserCreate.
Record t : Type := make
  { email : string; password : string; is_admin : bool }.
End UserCreate.

Module BookCreate.
Record t : Type := make
  { title : string; author : string; copies : Z }.
End BookCreate.

Module BorrowRequestCreate.
Record t : Type := make
  { book_id : Z; start_date : Z; end_date : Z }.
End BorrowRequestCreate.

End schemas.

(** ** The session: three tables *)

(** Modelled from the spec: [app/database.py], which builds the engine and
    the session ([get_db]), is not among the sources. The session is taken as
    the "simple keyed record stores" of the specification, one table per
    model of [app/models.py], with the constraints that file declares. *)
Record Session : Type := mkSession
  { users : list models.User.t;
    books : list models.Book.t;
    borrow_requests : list models.BorrowRequest.t }.

Definition M (A : Type) : Type := Session → outcome A * Session.

Definition raise {A} (e : exn) : M A := λ db, (Raise e, db).

#[global] Instance M_ret : MRet M := λ A a db, (Return a, db).

#[global] Instance M_bind : MBind M := λ A B k m db,
  match m db with
  | (Return a, db') => k a db'
  | (Raise e, db') => (Raise e, db')
  end.

(** [db.query(T).filter(p).first()]: the first row of the table that
    satisfies the filter, [None] when there is none. *)
Definition query_first {T} (table : Session → list T) (p : T → bool) : M (option T) :=
  λ db, (Return (find p (table db)), db).

(** [db.query(T).filter(p).all()] *)
Definition query_all {T} (table : Session → list T) (p : T → bool) : M (list T) :=
  λ db, (Return (List.filter p (table db)), db).

(** An integer primary key left unset is assigned by the store on insert:
    one more than the largest key of the table. *)
Definition next_id (ids : list Z) : Z := 1 + foldr Z.max 0 ids.

(** [db.add(row); db.commit(); db.refresh(row)] for the three tables.
    [users.email] is declared [unique=True], so the commit of a user whose
    email is already stored raises and stores nothing. *)
Definition add_user (email password : string) (is_admin : bool) : M models.User.t :=
  λ db,
    if existsb (λ u, String.eqb (models.User.email u) email) (users db)
    then (Raise IntegrityError, db)
    else
      let row := models.User.make (next_id (map models.User.id (users db)))
                                  email password is_admin in
      (Return row,
       mkSession (users db ++ [row]) (books db) (borrow_requests db)).

(** An [Integer] column is bounded on every engine; 64 bits signed is the
    widest it gets. The driver refuses a wider value and nothing is stored. *)
Definition integer_fits (n : Z) : bool := (- 2 ^ 63 <=? n) && (n <? 2 ^ 63).

Definition add_book_row (title author : string) (copies : Z) : M models.Book.t :=
  λ db,
    if integer_fits copies
    then
      let row := models.Book.make (next_id (map models.Book.id (books db)))
                                  title author copies in
      (Return row, mkSession (users db) (books db ++ [row]) (borrow_requests db))
    else (Raise OverflowError, db).

Definition add_borrow_request (user_id book_id start_date end_date : Z)
    (status : string) : M models.BorrowRequest.t :=
  λ db,
    let row := models.BorrowRequest.make
                 (next_id (map models.BorrowRequest.id (borrow_requests db)))
                 user_id book_id start_date end_date status in
    (Return row, mkSession (users db) (books db) (borrow_requests db ++ [row])).


(** ** The two libraries behind app/auth.py

    [passlib] and [python-jose] are dependencies, not code of the repository.
    Their cryptography is kept abstract as two interfaces; what the handlers
    can observe of them (which calls raise, what a decoded payload holds) is
    written out. *)

(** passlib's [CryptContext(schemes=["bcrypt"])]: [identify] tells whether a
    stored string starts as a bcrypt digest does, [digest salt secret] is
    the digest of [secret] under a salt, [check secret h] compares a secret
    with an identified string, and is [None] where the library raises
    [ValueError]: the string is no well-formed digest, or the secret is one
    bcrypt refuses. *)
Class CryptContext : Type :=
  { identify : string → bool;
    digest : string → string → string;
    check : string → string → option bool }.

(** A value a Python claims dictionary can hold. *)
Inductive pyval : Type :=
| PyStr (s : string)
| PyInt (n : Z)
| PyDatetime (t : Z)          (* seconds since the epoch *)
| PyTimedelta (seconds : Z).

(** A float, by what [int()] makes of it: the truncation of a finite one,
    [ValueError] for a NaN, [OverflowError] for an infinity. *)
Inductive pyfloat : Type :=
| Finite (trunc : Z)
| NaN
| Infinite.

#[global] Instance pyfloat_eq_dec : EqDecision pyfloat.
Proof. solve_decision. Defined.

(** A value of the JSON payload of a token. Of an array or an object only
    its kind is kept: the code and the library look at no element. *)
Inductive json : Type :=
| JStr (s : string)
| JInt (n : Z)
| JBool (b : bool)
| JFloat (f : pyfloat)
| JNull
| JOther.

#[global] Instance json_eq_dec : EqDecision json.
Proof. solve_decision. Defined.

(** A compact JWS: the algorithm of its header, its payload, its signature.
    The base64 and JSON text codecs are left out. *)
Record token : Type := mkToken
  { tok_alg : string; tok_claims : gmap string json; tok_signature : string }.

(** The MAC of a header and payload under a key. *)
Class Signer : Type :=
  { hmac : string → string → gmap string json → string }.

(** The two clocks the code reads: [datetime.now()] at issuance (a naive
    local wall-clock time, which [encode] turns into an integer date as if
    it were UTC), and the UTC clock python-jose reads when it validates
    "exp" and "nbf". Instants and durations are whole seconds. *)
Record Clock : Type := mkClock { local_now : Z; utc_now : Z }.

(** [str(n)], and the reading of a decimal numeral. *)
Definition str (n : Z) : string := NilZero.string_of_int (Z.to_int n).
Definition int_of_str (s : string) : option Z :=
  Z.of_int <$> NilZero.int_of_string s.

(** What is left to the interpreter and to the database engine:
    [int_of_text s] is Python's [int(s)] on a string ([None] where it raises
    [ValueError]); [id_operand v] is what the engine makes of
    [models.User.id == v], the test it applies to the integer column, or
    [None] where it refuses the operand. [app/database.py], which picks the
    engine, is not among the sources. *)
Class Platform : Type :=
  { int_of_text : string → option Z;
    id_operand : json → option (Z → bool) }.

Module jwt.

(** [encode] turns a [datetime] under "exp", "iat" or "nbf" into its
    integer date. *)
Definition intdate (v : pyval) : pyval :=
  match v with
  | PyDatetime t => PyInt t
  | _ => v
  end.

Definition convert_time_claims (claims : gmap string pyval) : gmap string pyval :=
  alter intdate "nbf" (alter intdate "iat" (alter intdate "exp" claims)).

(** [json.dumps] has no encoding for [datetime] and [timedelta] objects:
    it raises [TypeError] on them. *)
Definition to_json (v : pyval) : option json :=
  match v with
  | PyStr s => Some (JStr s)
  | PyInt n => Some (JInt n)
  | PyDatetime _ | PyTimedelta _ => None
  end.

Definition json_dumps (claims : gmap string pyval) : option (gmap string json) :=
  if bool_decide (map_Forall (λ _ v, is_Some (to_json v)) claims)
  then Some (omap to_json claims)
  else None.

Definition encode {signer : Signer} (claims : gmap string pyval) (key algorithm : string)
    : outcome token :=
  match json_dumps (convert_time_claims claims) with
  | None => Raise TypeError
  | Some payload => Return (mkToken algorithm payload (hmac key algorithm payload))
  end.

(** [int(v)] on a value of the payload. *)
Definition to_int {platform : Platform} (v : json) : outcome Z :=
  match v with
  | JInt n => Return n
  | JBool b => Return (if b then 1 else 0)
  | JStr s => match int_of_text s with Some n => Return n | None => Raise ValueError end
  | JFloat (Finite n) => Return n
  | JFloat NaN => Raise ValueError
  | JFloat Infinite => Raise OverflowError
  | JNull | JOther => Raise TypeError
  end.

(** [try: int(claims[k]) except ValueError: raise JWTClaimsError(...)], for
    a claim that is present: any other exception of [int] passes through. *)
Definition time_claim {platform : Platform} (claims : gmap string json) (k : string)
    : outcome (option Z) :=
  match claims !! k with
  | None => Return None
  | Some v =>
    match to_int v with
    | Return n => Return (Some n)
    | Raise ValueError => Raise JWTClaimsError
    | Raise e => Raise e
    end
  end.

Definition validate_iat {platform : Platform} (claims : gmap string json) : outcome unit :=
  _ ← time_claim claims "iat"; Return ().

(** [_validate_nbf]: not yet valid when strictly after the current time. *)
Definition validate_nbf {platform : Platform} (claims : gmap string json) (now : Z)
    : outcome unit :=
  nbf ← time_claim claims "nbf";
  match nbf with
  | Some n => if now <? n then Raise JWTClaimsError else Return ()
  | None => Return ()
  end.

(** [_validate_exp]: expired when strictly before the current time. *)
Definition validate_exp {platform : Platform} (claims : gmap string json) (now : Z)
    : outcome unit :=
  exp ← time_claim claims "exp";
  match exp with
  | Some n => if n <? now then Raise ExpiredSignatureError else Return ()
  | None => Return ()
  end.

(** [_validate_aud] with [audience=None]: [None] is among the audiences of
    no claim, whatever its format. *)
Definition validate_aud (claims : gmap string json) : outcome unit :=
  match claims !! "aud" with
  | Some _ => Raise JWTClaimsError
  | None => Return ()
  end.

(** [_validate_sub]: a subject, when present, must be a string. *)
Definition validate_sub (claims : gmap string json) : outcome unit :=
  match claims !! "sub" with
  | Some (JStr _) | None => Return ()
  | Some _ => Raise JWTClaimsError
  end.

(** [_validate_jti]: a token id, when present, must be a string. *)
Definition validate_jti (claims : gmap string json) : outcome unit :=
  match claims !! "jti" with
  | Some (JStr _) | None => Return ()
  | Some _ => Raise JWTClaimsError
  end.

(** [_validate_at_hash] with [access_token=None]: there is nothing to
    compare the claim with. *)
Definition validate_at_hash (claims : gmap string json) : outcome unit :=
  match claims !! "at_hash" with
  | Some _ => Raise JWTClaimsError
  | None => Return ()
  end.

(** [decode(token, key, algorithms=...)] with the default options and no
    audience, issuer, subject or access token: the header's algorithm must
    be an accepted one and the signature verify ([JWSError], re-raised as
    [JWTError]); then the claims are validated in this order. With
    [issuer=None] the "iss" claim is not looked at. *)
Definition decode {signer : Signer} {platform : Platform} (tok : token) (key : string)
    (algorithms : list string) (clk : Clock) : outcome (gmap string json) :=
  if negb (bool_decide (tok_alg tok ∈ algorithms)) then Raise JWTError
  else if negb (String.eqb (tok_signature tok)
                  (hmac key (tok_alg tok) (tok_claims tok)))
  then Raise JWTError
  else
    _ ← validate_iat (tok_claims tok);
    _ ← validate_nbf (tok_claims tok) (utc_now clk);
    _ ← validate_exp (tok_claims tok) (utc_now clk);
    _ ← validate_aud (tok_claims tok);
    _ ← validate_sub (tok_claims tok);
    _ ← validate_jti (tok_claims tok);
    _ ← validate_at_hash (tok_claims tok);
    Return (tok_claims tok).

End jwt.

(** ** app/crud.py *)

Module crud.

(** [def create_user(db, user, is_admin: bool = True)]: [None] stands for
    a call that leaves the argument out. The [password] of the request
    body goes into the row as it is. *)
Definition create_user (user : schemas.UserCreate.t) (is_admin : option bool)
    : M models.User.t :=
  add_user (schemas.UserCreate.email user) (schemas.UserCreate.password user)
           (default true is_admin).

Definition get_books : M (list models.Book.t) :=
  query_all books (λ _, true).

Definition get_user_borrow_history (user_id : Z) : M (list models.BorrowRequest.t) :=
  query_all borrow_requests (λ r, models.BorrowRequest.user_id r =? user_id).

End crud.

(** ** app/auth.py *)

Module auth.

Definition SECRET_KEY : string :=
  "f7f8bc9e4b1147bfa31e7b2e9b965ba3a1c937a10f9dbfa2f925d19c04eb566b".
Definition ALGORITHM : string := "HS256".
Definition ACCESS_TOKEN_EXPIRE_MINUTES : Z := 30.

(** [pwd_context.verify]: a stored string no scheme of the context
    identifies raises [UnknownHashError]; an identified one that the scheme
    cannot read raises [ValueError]. *)
Definition verify_password {ctx : CryptContext} (plain_password hashed_password : string)
    : outcome bool :=
  if identify hashed_password
  then match check plain_password hashed_password with
       | Some b => Return b
       | None => Raise ValueError
       end
  else Raise UnknownHashError.

(** [pwd_context.hash] draws a fresh salt at each call. *)
Definition get_password_hash {ctx : CryptContext} (salt password : string) : string :=
  digest salt password.

Definition authenticate_user {ctx : CryptContext} (email password : string)
    : M (option models.User.t) :=
  user ← query_first users (λ u, String.eqb (models.User.email u) email);
  match user with
  | None => mret None
  | Some u =>
    match verify_password password (models.User.password u) with
    | Raise e => raise e
    | Return true => mret (Some u)
    | Return false => mret None
    end
  end.

(** Truth value of an [Optional[timedelta]]: [None] and the zero duration
    are false. *)
Definition truthy (expires_delta : option Z) : bool :=
  match expires_delta with
  | Some d => negb (d =? 0)
  | None => false
  end.

(** The instants a [datetime] can hold, in seconds:
    0001-01-01 00:00:00 to 9999-12-31 23:59:59. *)
Definition datetime_min : Z := -62135596800.
Definition datetime_max : Z := 253402300799.

(** [datetime + timedelta]: [OverflowError] when the sum leaves the years
    1 to 9999. *)
Definition datetime_add (t d : Z) : outcome Z :=
  if (datetime_min <=? t + d) && (t + d <=? datetime_max)
  then Return (t + d)
  else Raise OverflowError.

(** [expire = datetime.now() + expires_delta if expires_delta else timedelta(minutes=15)].
    The conditional expression binds weaker than [+]: its else branch is
    the bare [timedelta(minutes=15)]. *)
Definition expire (expires_delta : option Z) (clk : Clock) : outcome pyval :=
  match expires_delta with
  | Some d =>
    if truthy expires_delta
    then t ← datetime_add (local_now clk) d; Return (PyDatetime t)
    else Return (PyTimedelta (15 * 60))
  | None => Return (PyTimedelta (15 * 60))
  end.

Definition create_access_token {signer : Signer} (data : gmap string pyval)
    (expires_delta : option Z) (clk : Clock) : outcome token :=
  let to_encode := data in
  expire ← expire expires_delta clk;
  let to_encode := <["exp" := expire]> to_encode in
  jwt.encode to_encode SECRET_KEY ALGORITHM.

Definition credentials_exception : exn :=
  HTTPException 401 "Could not validate credentials".

(** [user_id = payload.get("sub")], [None] when the claim is absent or
    null; then the lookup by [models.User.id == user_id], which the engine
    may refuse. *)
Definition get_current_user {signer : Signer} {platform : Platform}
    (tok : token) (clk : Clock) : M models.User.t :=
  match jwt.decode tok SECRET_KEY [ALGORITHM] clk with
  | Raise e => if is_JWTError e then raise credentials_exception else raise e
  | Return payload =>
    match payload !! "sub" with
    | None | Some JNull => raise credentials_exception
    | Some user_id =>
      match id_operand user_id with
      | None => raise DBAPIError
      | Some matches =>
        user ← query_first users (λ u, matches (models.User.id u));
        match user with
        | None => raise credentials_exception
        | Some u => mret u
        end
      end
    end
  end.

End auth.

(** ** app/routers/admin.py *)

Module admin.

Definition not_authorized : exn := HTTPException 403 "Not authorized".

Definition login {ctx : CryptContext} {signer : Signer} (email password : string) (clk : Clock)
    : M (token * string) :=
  user ← auth.authenticate_user email password;
  match user with
  | None => raise (HTTPException 401 "Invalid credentials")
  | Some u =>
    let token_data : gmap string pyval := {["sub" := PyStr (str (models.User.id u))]} in
    match auth.create_access_token token_data None clk with
    | Raise e => raise e
    | Return access_token => mret (access_token, "bearer")
    end
  end.

Definition create_admin_user (user : schemas.UserCreate.t) : M models.User.t :=
  existing_admin ← query_first users (λ u, Bool.eqb (models.User.is_admin u) true);
  match existing_admin with
  | Some _ => raise (HTTPException 400 "An admin already exists.")
  | None => crud.create_user user (Some true)
  end.

Definition create_user (user : schemas.UserCreate.t) (current_user : models.User.t)
    : M models.User.t :=
  if negb (models.User.is_admin current_user) then raise not_authorized
  else crud.create_user user None.

Definition view_borrow_requests (current_user : models.User.t)
    : M (list models.BorrowRequest.t) :=
  if negb (models.User.is_admin current_user) then raise not_authorized
  else query_all borrow_requests (λ _, true).

Definition set_status (status : string) (r : models.BorrowRequest.t)
    : models.BorrowRequest.t :=
  models.BorrowRequest.make
    (models.BorrowRequest.id r) (models.BorrowRequest.user_id r)
    (models.BorrowRequest.book_id r) (models.BorrowRequest.start_date r)
    (models.BorrowRequest.end_date r) status.

(** [borrow_request.status = "approved"; db.commit()]: the row with the
    key of the loaded object is updated. *)
Definition commit_status (id : Z) (status : string) : M unit :=
  λ db,
    (Return (),
     mkSession (users db) (books db)
       (map (λ r, if models.BorrowRequest.id r =? id then set_status status r else r)
            (borrow_requests db))).

Definition approve_request (request_id : Z) (current_user : models.User.t)
    : M models.BorrowRequest.t :=
  if negb (models.User.is_admin current_user) then raise not_authorized
  else
    borrow_request ← query_first borrow_requests
                        (λ r, models.BorrowRequest.id r =? request_id);
    match borrow_request with
    | None => raise (HTTPException 404 "Request not found")
    | Some r =>
      _ ← commit_status (models.BorrowRequest.id r) "approved";
      mret (set_status "approved" r)
    end.

Definition view_user_borrow_history (user_id : Z) (current_user : models.User.t)
    : M (list models.BorrowRequest.t) :=
  if negb (models.User.is_admin current_user) then raise not_authorized
  else
    borrow_history ← crud.get_user_borrow_history user_id;
    match borrow_history with
    | [] => raise (HTTPException 404 "No borrow history found for this user")
    | _ => mret borrow_history
    end.

Definition add_book (book : schemas.BookCreate.t) (current_user : models.User.t)
    : M models.Book.t :=
  if negb (models.User.is_admin current_user) then raise not_authorized
  else add_book_row (schemas.BookCreate.title book) (schemas.BookCreate.author book)
                    (schemas.BookCreate.copies book).

End admin.

(** ** app/routers/user.py *)

Module user.

(** The filter of the overlap query of [borrow_request]. *)
Definition overlapping (request : schemas.BorrowRequestCreate.t)
    (r : models.BorrowRequest.t) : bool :=
  (models.BorrowRequest.book_id r =? schemas.BorrowRequestCreate.book_id request)
  && String.eqb (models.BorrowRequest.status r) "approved"
  && (schemas.BorrowRequestCreate.start_date request <? models.BorrowRequest.end_date r)
  && (models.BorrowRequest.start_date r <? schemas.BorrowRequestCreate.end_date request).

Definition get_books : M (list models.Book.t) :=
  query_all books (λ _, true).

Definition view_borrow_history (current_user : models.User.t)
    : M (list models.BorrowRequest.t) :=
  query_all borrow_requests
    (λ r, models.BorrowRequest.user_id r =? models.User.id current_user).

Definition borrow_request (request : schemas.BorrowRequestCreate.t)
    (current_user : models.User.t) : M models.BorrowRequest.t :=
  book ← query_first books
            (λ b, models.Book.id b =? schemas.BorrowRequestCreate.book_id request);
  match book with
  | None => raise (HTTPException 404 "Book not found")
  | Some _ =>
    overlapping_request ← query_first borrow_requests (overlapping request);
    match overlapping_request with
    | Some _ =>
      raise (HTTPException 400
               "This book is already borrowed during the requested period")
    | None =>
      add_borrow_request
        (models.User.id current_user)
        (schemas.BorrowRequestCreate.book_id request)
        (schemas.BorrowRequestCreate.start_date request)
        (schemas.BorrowRequestCreate.end_date request)
        "pending"
    end
  end.

End user.

(** ** Vocabulary of the statements *)

(** The error of the overlap check. *)
Definition period_conflict : exn :=
  HTTPException 400 "This book is already borrowed during the requested period".

Definition book_not_found : exn := HTTPException 404 "Book not found".

(** The row [borrow_request] inserts. *)
Definition pending_row (request : schemas.BorrowRequestCreate.t)
    (current_user : models.User.t) (db : Session) : models.BorrowRequest.t :=
  models.BorrowRequest.make
    (next_id (map models.BorrowRequest.id (borrow_requests db)))
    (models.User.id current_user)
    (schemas.BorrowRequestCreate.book_id request)
    (schemas.BorrowRequestCreate.start_date request)
    (schemas.BorrowRequestCreate.end_date request)
    "pending".

Definition book_exists (book_id : Z) (db : Session) : Prop :=
  ∃ b, In b (books db) ∧ models.Book.id b = book_id.

(** The overlap test of the specification, on one stored request. *)
Definition conflicts (request : schemas.BorrowRequestCreate.t)
    (r : models.BorrowRequest.t) : Prop :=
  models.BorrowRequest.book_id r = schemas.BorrowRequestCreate.book_id request
  ∧ models.BorrowRequest.status r = "approved"
  ∧ models.BorrowRequest.end_date r > schemas.BorrowRequestCreate.start_date request
  ∧ models.BorrowRequest.start_date r < schemas.BorrowRequestCreate.end_date request.

Definition admin_already_exists : exn := HTTPException 400 "An admin already exists.".

Definition admin_exists (db : Session) : Prop :=
  ∃ u, In u (users db) ∧ models.User.is_admin u = true.

Definition email_taken (email : string) (db : Session) : Prop :=
  ∃ u, In u (users db) ∧ models.User.email u = email.

(** The requests table after an approval of [request_id]. *)
Definition approved_table (request_id : Z) (table : list models.BorrowRequest.t)
    : list models.BorrowRequest.t :=
  map (λ r, if models.BorrowRequest.id r =? request_id
            then admin.set_status "approved" r else r) table.

Definition request_not_found : exn := HTTPException 404 "Request not found".

Definition no_borrow_history : exn :=
  HTTPException 404 "No borrow history found for this user".

(** What an approval of [request_id] may do to one row. *)
Definition approval_step (request_id : Z) (r r' : models.BorrowRequest.t) : Prop :=
  models.BorrowRequest.id r' = models.BorrowRequest.id r
  ∧ models.BorrowRequest.user_id r' = models.BorrowRequest.user_id r
  ∧ models.BorrowRequest.book_id r' = models.BorrowRequest.book_id r
  ∧ models.BorrowRequest.start_date r' = models.BorrowRequest.start_date r
  ∧ models.BorrowRequest.end_date r' = models.BorrowRequest.end_date r
  ∧ (r' = r
     ∨ (models.BorrowRequest.id r = request_id
        ∧ models.BorrowRequest.status r' = "approved")).

Definition is_approved (r : models.BorrowRequest.t) : bool :=
  String.eqb (models.BorrowRequest.status r) "approved".

(** The keys of a store: emails and ids of the three tables. *)
Definition keys_unique (db : Session) : Prop :=
  NoDup (map models.User.email (users db))
  ∧ NoDup (map models.User.id (users db))
  ∧ NoDup (map models.Book.id (books db))
  ∧ NoDup (map models.BorrowRequest.id (borrow_requests db)).

(** The instants a [datetime] holds. *)
Definition datetime_in_range (t : Z) : Prop :=
  auth.datetime_min ≤ t ≤ auth.datetime_max.

(** The engine compares the id column with the string [operand] as with
    the integer [n]. *)
Definition reads_as {platform : Platform} (operand : string) (n : Z) : Prop :=
  ∃ matches, id_operand (JStr operand) = Some matches ∧ ∀ i, matches i = (i =? n).

(** The header names the algorithm of the code and the signature is the
    one of the payload under the secret key. *)
Definition verified {signer : Signer} (tok : token) : Prop :=
  tok_alg tok = auth.ALGORITHM
  ∧ tok_signature tok = hmac auth.SECRET_KEY (tok_alg tok) (tok_claims tok).

(** [int()] fails on a time claim of the payload with an exception the
    library does not catch. *)
Definition int_crash {platform : Platform} (claims : gmap string json) (e : exn) : Prop :=
  (e = TypeError ∨ e = OverflowError)
  ∧ ∃ k v, In k ["iat"; "nbf"; "exp"] ∧ claims !! k = Some v ∧ jwt.to_int v = Raise e.

(** A claim on which [int()] raises nothing, or [ValueError] only. *)
Definition converts (v : option json) : Prop :=
  match v with
  | Some JNull | Some JOther | Some (JFloat Infinite) => False
  | _ => True
  end.

(** ** A small store to evaluate the handlers on *)

Module Fixture.

(** A day of January 2025 as a timestamp. *)
Definition jan (day : Z) : Z := 1735689600 + 86400 * (day - 1).

Definition root : models.User.t :=
  models.User.make 1 "root@example.com" "hunter2" true.
Definition alice : models.User.t :=
  models.User.make 2 "alice@example.com" "secret" false.
Definition book_B : models.Book.t := models.Book.make 1 "T" "A" 1.

Definition approved_10_20 : models.BorrowRequest.t :=
  models.BorrowRequest.make 1 2 1 (jan 10) (jan 20) "approved".
Definition pending_12_18 : models.BorrowRequest.t :=
  models.BorrowRequest.make 1 2 1 (jan 12) (jan 18) "pending".

Definition db_approved : Session := mkSession [root; alice] [book_B] [approved_10_20].
Definition db_pending : Session := mkSession [root; alice] [book_B] [pending_12_18].

Definition pending_15_25 : models.BorrowRequest.t :=
  models.BorrowRequest.make 2 2 1 (jan 15) (jan 25) "pending".

(** An approved request and a pending one of the same book that overlap. *)
Definition db_overlap : Session :=
  mkSession [root; alice] [book_B] [approved_10_20; pending_15_25].

Definition bob_body : schemas.UserCreate.t :=
  schemas.UserCreate.make "bob@example.com" "pw" false.

(** Stand-ins for the two libraries, to run the handlers on: a password
    scheme whose digests are the marker "$2b$", the secret, a "$" and the
    salt (a string without that second "$" is no well-formed digest), and a
    signer whose tag is the key followed by the algorithm. *)
Definition toy_context : CryptContext :=
  {| identify := String.prefix "$2b$";
     digest := λ salt secret, "$2b$" ++ secret ++ "$" ++ salt;
     check := λ secret h,
       match String.index 4 "$" h with
       | Some _ => Some (String.prefix ("$2b$" ++ secret ++ "$") h)
       | None => None
       end |}.

(** A platform that reads decimal numerals only, in [int] and in the
    comparison with the id column. *)
Definition toy_platform : Platform :=
  {| int_of_text := int_of_str;
     id_operand := λ v,
       match v with
       | JStr s => (λ n i, i =? n) <$> int_of_str s
       | JInt n => Some (λ i, i =? n)
       | _ => None
       end |}.

Definition toy_signer : Signer :=
  {| hmac := λ key algorithm _, key ++ algorithm |}.

(** A user whose stored password is a digest of "pw" under the stand-in
    scheme. *)
Definition carol : models.User.t :=
  models.User.make 3 "carol@example.com" "$2b$pw$NaCl" false.
Definition db_carol : Session := mkSession [root; alice; carol] [book_B] [].

Definition noon : Clock := mkClock (jan 5 + 43200) (jan 5 + 43200).

Definition ask (book_id day_from day_to : Z) : schemas.BorrowRequestCreate.t :=
  schemas.BorrowRequestCreate.make book_id (jan day_from) (jan day_to).

End Fixture.

(** Alice's request for [Jan 20, Jan 25) filed against the approved
    [Jan 10, Jan 20), and the store it leaves. *)
Definition filed_20_25 : models.BorrowRequest.t :=
  pending_row (Fixture.ask 1 20 25) Fixture.alice Fixture.db_approved.
Definition db_filed : Session :=
  (user.borrow_request (Fixture.ask 1 20 25) Fixture.alice Fixture.db_approved).2.

(** Alice's token, signed as the code signs, with an expiry. *)
Definition alice_token (exp : Z) : token :=
  mkToken auth.ALGORITHM (<["exp" := JInt exp]> {["sub" := JStr "2"]})
    (hmac (Signer := Fixture.toy_signer) auth.SECRET_KEY auth.ALGORITHM
       (<["exp" := JInt exp]> {["sub" := JStr "2"]})).

(** * Properties *)

(** ** Running a handler *)

(** Unfolds the sequencing of a handler down to its table lookups. *)
Ltac run_handler := unfold mbind, M_bind, query_first; simpl.

Lemma find_Some_ex {T} (p : T → bool) (l : list T) :
  (∃ x, find p l = Some x) ↔ (∃ x, In x l ∧ p x = true).
Proof.
  split.
  - intros [x Hx]. exists x. by apply find_some in Hx.
  - intros [x [Hin Hp]]. destruct (find p l) as [y|] eqn:E; [by exists y|].
    by rewrite (find_none _ _ E x Hin) in Hp.
Qed.

Lemma find_None_all {T} (p : T → bool) (l : list T) :
  find p l = None ↔ (∀ x, In x l → p x = false).
Proof.
  split; [apply find_none|].
  intros H. destruct (find p l) as [y|] eqn:E; [|done].
  apply find_some in E as [Hin Hp]. by rewrite (H y Hin) in Hp.
Qed.

Lemma overlapping_conflicts request r :
  user.overlapping request r = true ↔ conflicts request r.
Proof.
  unfold user.overlapping, conflicts.
  rewrite !andb_true_iff, Z.eqb_eq, String.eqb_eq, !Z.ltb_lt.
  intuition lia.
Qed.

Lemma book_lookup_Some request db :
  book_exists (schemas.BorrowRequestCreate.book_id request) db ↔
  ∃ b, find (λ b, models.Book.id b =? schemas.BorrowRequestCreate.book_id request)
            (books db) = Some b.
Proof.
  rewrite find_Some_ex. unfold book_exists.
  split; intros [b [Hin Hb]]; exists b; split; auto; by apply Z.eqb_eq.
Qed.

(** The three ways [borrow_request] can run, by the two lookups it makes. *)
Lemma borrow_request_run request current_user db :
  user.borrow_request request current_user db =
  match find (λ b, models.Book.id b =? schemas.BorrowRequestCreate.book_id request)
             (books db) with
  | None => (Raise book_not_found, db)
  | Some _ =>
    match find (user.overlapping request) (borrow_requests db) with
    | Some _ => (Raise period_conflict, db)
    | None =>
      (Return (pending_row request current_user db),
       mkSession (users db) (books db)
                 (borrow_requests db ++ [pending_row request current_user db]))
    end
  end.
Proof.
  unfold user.borrow_request. run_handler.
  destruct (find _ (books db)); [|done].
  by destruct (find _ (borrow_requests db)).
Qed.

(** ** Admission of a borrow request *)

(** C1: on an existing book, [borrow_request] fails with the period-conflict
    error exactly when some stored request of that book with status
    "approved" satisfies [end_date > start] and [start_date < end], and then
    stores nothing. Otherwise the request is admitted: when every approved
    request of the book ends no later than [start] or starts no earlier than
    [end] (touching endpoints included, requests with another status not
    looked at), the pending row is appended and returned. *)
Theorem borrow_request_conflict_iff request current_user db :
  book_exists (schemas.BorrowRequestCreate.book_id request) db →
  ((user.borrow_request request current_user db).1 = Raise period_conflict
   ↔ ∃ r, In r (borrow_requests db) ∧ conflicts request r)
  ∧ ((∃ r, In r (borrow_requests db) ∧ conflicts request r) →
     user.borrow_request request current_user db = (Raise period_conflict, db))
  ∧ ((∀ r, In r (borrow_requests db) →
           models.BorrowRequest.book_id r = schemas.BorrowRequestCreate.book_id request →
           models.BorrowRequest.status r = "approved" →
           models.BorrowRequest.end_date r ≤ schemas.BorrowRequestCreate.start_date request
           ∨ schemas.BorrowRequestCreate.end_date request
             ≤ models.BorrowRequest.start_date r) →
     user.borrow_request request current_user db
     = (Return (pending_row request current_user db),
        mkSession (users db) (books db)
          (borrow_requests db ++ [pending_row request current_user db]))).
Proof.
  intros [b Hb]%book_lookup_Some.
  rewrite borrow_request_run, Hb.
  destruct (find _ (borrow_requests db)) as [r|] eqn:E; simpl.
  - apply find_some in E as [Hin Hov]. apply overlapping_conflicts in Hov.
    split; [|split].
    + split; [intros _|done]. by exists r.
    + done.
    + intros Hfree. destruct Hov as (Hbook & Hst & Hend & Hstart).
      destruct (Hfree r Hin Hbook Hst); lia.
  - assert (¬ ∃ r, In r (borrow_requests db) ∧ conflicts request r) as Hno.
    { intros [r [Hin Hc]]. apply overlapping_conflicts in Hc.
      by rewrite (find_none _ _ E r Hin) in Hc. }
    split; [|split]; [split; [done|by intros ?]|by intros ?|done].
Qed.

Lemma borrow_request_conflict_iff_witness :
  book_exists 1 Fixture.db_approved
  ∧ ((user.borrow_request (Fixture.ask 1 20 25) Fixture.alice Fixture.db_approved).1
       = Raise period_conflict
     ↔ ∃ r, In r (borrow_requests Fixture.db_approved)
            ∧ conflicts (Fixture.ask 1 20 25) r)
  ∧ ((∃ r, In r (borrow_requests Fixture.db_approved)
           ∧ conflicts (Fixture.ask 1 20 25) r) →
     user.borrow_request (Fixture.ask 1 20 25) Fixture.alice Fixture.db_approved
     = (Raise period_conflict, Fixture.db_approved))
  ∧ ((∀ r, In r (borrow_requests Fixture.db_approved) →
           models.BorrowRequest.book_id r = 1 →
           models.BorrowRequest.status r = "approved" →
           models.BorrowRequest.end_date r ≤ Fixture.jan 20
           ∨ Fixture.jan 25 ≤ models.BorrowRequest.start_date r) →
     user.borrow_request (Fixture.ask 1 20 25) Fixture.alice Fixture.db_approved
     = (Return (pending_row (Fixture.ask 1 20 25) Fixture.alice Fixture.db_approved),
        mkSession (users Fixture.db_approved) (books Fixture.db_approved)
          (borrow_requests Fixture.db_approved
           ++ [pending_row (Fixture.ask 1 20 25) Fixture.alice Fixture.db_approved]))).
Proof.
  assert (H : book_exists 1 Fixture.db_approved).
  { exists Fixture.book_B. split; [left|]; reflexivity. }
  split; [exact H|].
  exact (borrow_request_conflict_iff (Fixture.ask 1 20 25) Fixture.alice
           Fixture.db_approved H).
Defined.

(** The three requests of the specification against an approved
    [Jan 10, Jan 20), and one against a pending request. *)
Example overlap_15_25_rejected :
  user.borrow_request (Fixture.ask 1 15 25) Fixture.alice Fixture.db_approved
  = (Raise period_conflict, Fixture.db_approved).
Proof. reflexivity. Qed.

Example touching_20_25_admitted :
  (user.borrow_request (Fixture.ask 1 20 25) Fixture.alice Fixture.db_approved).1
  = Return (models.BorrowRequest.make 2 2 1 (Fixture.jan 20) (Fixture.jan 25) "pending").
Proof. reflexivity. Qed.

Example touching_1_10_admitted :
  (user.borrow_request (Fixture.ask 1 1 10) Fixture.alice Fixture.db_approved).1
  = Return (models.BorrowRequest.make 2 2 1 (Fixture.jan 1) (Fixture.jan 10) "pending").
Proof. reflexivity. Qed.

Example pending_not_consulted :
  (user.borrow_request (Fixture.ask 1 15 25) Fixture.alice Fixture.db_pending).1
  = Return (models.BorrowRequest.make 2 2 1 (Fixture.jan 15) (Fixture.jan 25) "pending").
Proof. reflexivity. Qed.

(** C8: [borrow_request] fails with "Book not found" (404) exactly when the
    book id resolves to no book, whatever requests are stored (the lookup
    comes before the overlap test); it changes the store only when it
    succeeds, and then the row it appends and returns is pending, belongs to
    the caller and carries the book id and the two dates of the request; it
    succeeds whenever the book exists and no stored request conflicts. *)
Theorem borrow_request_book_not_found request current_user db :
  ((user.borrow_request request current_user db).1 = Raise book_not_found
   ↔ ¬ book_exists (schemas.BorrowRequestCreate.book_id request) db)
  ∧ match user.borrow_request request current_user db with
    | (Return r, db') =>
        models.BorrowRequest.status r = "pending"
        ∧ models.BorrowRequest.user_id r = models.User.id current_user
        ∧ models.BorrowRequest.book_id r = schemas.BorrowRequestCreate.book_id request
        ∧ models.BorrowRequest.start_date r = schemas.BorrowRequestCreate.start_date request
        ∧ models.BorrowRequest.end_date r = schemas.BorrowRequestCreate.end_date request
        ∧ db' = mkSession (users db) (books db) (borrow_requests db ++ [r])
    | (Raise e, db') => db' = db ∧ (e = book_not_found ∨ e = period_conflict)
    end
  ∧ (book_exists (schemas.BorrowRequestCreate.book_id request) db
     ∧ (∀ r, In r (borrow_requests db) → ¬ conflicts request r)
     ↔ ∃ r db', user.borrow_request request current_user db = (Return r, db')).
Proof.
  rewrite borrow_request_run, book_lookup_Some.
  destruct (find _ (books db)) as [b|] eqn:Eb.
  - destruct (find _ (borrow_requests db)) as [r|] eqn:Er; simpl.
    + split; [|split].
      * split; [done|]. intros []. eauto.
      * auto.
      * split; [|by intros (? & ? & ?)]. intros [_ Hno].
        apply find_some in Er as [Hin Hov]. apply overlapping_conflicts in Hov.
        by destruct (Hno r Hin).
    + split; [|split].
      * split; [done|]. intros []. eauto.
      * done.
      * split; [eauto|]. intros _. split; [eauto|].
        intros r Hin Hc%overlapping_conflicts.
        by rewrite (find_none _ _ Er r Hin) in Hc.
  - simpl. split; [|split].
    + split; [|done]. by intros _ [? ?].
    + auto.
    + split; [by intros [[? ?] _]|by intros (? & ? & ?)].
Qed.

(** C9: the order of the two dates is never checked. A request whose
    [end_date] is not after its [start_date], for an existing book and with
    no stored request conflicting under the overlap test, is admitted and
    stored as pending. *)
Theorem inverted_range_admitted request current_user db :
  schemas.BorrowRequestCreate.end_date request
    ≤ schemas.BorrowRequestCreate.start_date request →
  book_exists (schemas.BorrowRequestCreate.book_id request) db →
  (∀ r, In r (borrow_requests db) → ¬ conflicts request r) →
  ∃ r,
    user.borrow_request request current_user db
    = (Return r, mkSession (users db) (books db) (borrow_requests db ++ [r]))
    ∧ models.BorrowRequest.status r = "pending"
    ∧ models.BorrowRequest.start_date r = schemas.BorrowRequestCreate.start_date request
    ∧ models.BorrowRequest.end_date r = schemas.BorrowRequestCreate.end_date request.
Proof.
  intros _ [b Hb]%book_lookup_Some Hno.
  exists (pending_row request current_user db).
  rewrite borrow_request_run, Hb.
  assert (find (user.overlapping request) (borrow_requests db) = None) as ->; [|done].
  apply find_None_all. intros r Hin.
  destruct (user.overlapping request r) eqn:E; [|done].
  apply overlapping_conflicts in E. by destruct (Hno r Hin).
Qed.

Lemma inverted_range_admitted_witness :
  ∃ r,
    user.borrow_request (Fixture.ask 1 25 22) Fixture.alice Fixture.db_approved
    = (Return r, mkSession (users Fixture.db_approved) (books Fixture.db_approved)
                   (borrow_requests Fixture.db_approved ++ [r]))
    ∧ models.BorrowRequest.status r = "pending"
    ∧ models.BorrowRequest.start_date r = Fixture.jan 25
    ∧ models.BorrowRequest.end_date r = Fixture.jan 22.
Proof.
  apply (inverted_range_admitted (Fixture.ask 1 25 22) Fixture.alice Fixture.db_approved).
  - vm_compute. discriminate.
  - exists Fixture.book_B. split; [left|]; reflexivity.
  - intros r [<-|[]] (_ & _ & Hend & _). vm_compute in Hend. discriminate.
Defined.

(** ** The admin router *)

Lemma find_is_admin (l : list models.User.t) :
  (∃ u, find (λ u, Bool.eqb (models.User.is_admin u) true) l = Some u)
  ↔ ∃ u, In u l ∧ models.User.is_admin u = true.
Proof.
  rewrite find_Some_ex.
  split; intros [u [Hin Hu]]; exists u; split; auto;
    by destruct (models.User.is_admin u).
Qed.

Lemma add_user_raises email password is_admin db :
  (add_user email password is_admin db).1 ≠ Raise admin_already_exists.
Proof. unfold add_user. by destruct (existsb _ _). Qed.

(** C6: [create_admin_user] fails with "An admin already exists." (400)
    exactly when some stored user has [is_admin = true], whatever the request
    body holds, and the store is then left as it was. *)
Theorem create_admin_user_fails_iff user db :
  ((admin.create_admin_user user db).1 = Raise admin_already_exists
   ↔ admin_exists db)
  ∧ ((admin.create_admin_user user db).1 = Raise admin_already_exists
     → (admin.create_admin_user user db).2 = db).
Proof.
  unfold admin_exists. rewrite <- find_is_admin.
  unfold admin.create_admin_user. run_handler.
  destruct (find _ (users db)) as [a|] eqn:E; simpl.
  - split; [|done]. split; eauto.
  - split; [split|].
    + intros H. by apply add_user_raises in H.
    + by intros [? ?].
    + intros H. by apply add_user_raises in H.
Qed.

(** C7: a caller whose [is_admin] is false gets "Not authorized" (403) from
    [add_book], [approve_request], [create_user], [view_borrow_requests] and
    [view_user_borrow_history], and each of them leaves the store as it
    was. *)
Theorem non_admin_forbidden current_user db book request_id user user_id :
  models.User.is_admin current_user = false →
  admin.add_book book current_user db = (Raise admin.not_authorized, db)
  ∧ admin.approve_request request_id current_user db = (Raise admin.not_authorized, db)
  ∧ admin.create_user user current_user db = (Raise admin.not_authorized, db)
  ∧ admin.view_borrow_requests current_user db = (Raise admin.not_authorized, db)
  ∧ admin.view_user_borrow_history user_id current_user db
    = (Raise admin.not_authorized, db).
Proof.
  intros H.
  unfold admin.add_book, admin.approve_request, admin.create_user,
    admin.view_borrow_requests, admin.view_user_borrow_history.
  rewrite H. by repeat split.
Qed.

Lemma non_admin_forbidden_witness :
  admin.add_book (schemas.BookCreate.make "T" "A" 1) Fixture.alice Fixture.db_pending
    = (Raise admin.not_authorized, Fixture.db_pending)
  ∧ admin.approve_request 1 Fixture.alice Fixture.db_pending
    = (Raise admin.not_authorized, Fixture.db_pending)
  ∧ admin.create_user Fixture.bob_body Fixture.alice Fixture.db_pending
    = (Raise admin.not_authorized, Fixture.db_pending)
  ∧ admin.view_borrow_requests Fixture.alice Fixture.db_pending
    = (Raise admin.not_authorized, Fixture.db_pending)
  ∧ admin.view_user_borrow_history 2 Fixture.alice Fixture.db_pending
    = (Raise admin.not_authorized, Fixture.db_pending).
Proof.
  apply (non_admin_forbidden Fixture.alice Fixture.db_pending). reflexivity.
Defined.

Lemma existsb_email_taken email db :
  existsb (λ u, String.eqb (models.User.email u) email) (users db) = true
  ↔ email_taken email db.
Proof.
  rewrite existsb_exists. unfold email_taken.
  split; intros [u [Hin Hu]]; exists u; split; auto; by apply String.eqb_eq.
Qed.

(** C10: a user created through the admin router's [create_user] is stored
    with [is_admin = true] whatever [is_admin] the request body holds: the
    router leaves the argument out and the helper defaults it to [True]. *)
Theorem create_user_always_admin user current_user db :
  models.User.is_admin current_user = true →
  ¬ email_taken (schemas.UserCreate.email user) db →
  ∃ u,
    admin.create_user user current_user db
    = (Return u, mkSession (users db ++ [u]) (books db) (borrow_requests db))
    ∧ models.User.email u = schemas.UserCreate.email user
    ∧ models.User.is_admin u = true.
Proof.
  intros Hadmin Hfree.
  unfold admin.create_user, crud.create_user, add_user. rewrite Hadmin. simpl.
  destruct (existsb _ _) eqn:E.
  - by apply existsb_email_taken in E.
  - eauto.
Qed.

Lemma create_user_always_admin_witness :
  schemas.UserCreate.is_admin Fixture.bob_body = false
  ∧ ∃ u,
      admin.create_user Fixture.bob_body Fixture.root Fixture.db_pending
      = (Return u, mkSession (users Fixture.db_pending ++ [u])
                     (books Fixture.db_pending) (borrow_requests Fixture.db_pending))
      ∧ models.User.email u = "bob@example.com"
      ∧ models.User.is_admin u = true.
Proof.
  split; [reflexivity|].
  apply (create_user_always_admin Fixture.bob_body Fixture.root Fixture.db_pending).
  - reflexivity.
  - intros [u [[<-|[<-|[]]] Hu]]; vm_compute in Hu; discriminate.
Defined.

(** ** Approval *)

Lemma set_status_id status r :
  models.BorrowRequest.id (admin.set_status status r) = models.BorrowRequest.id r.
Proof. reflexivity. Qed.

Lemma set_status_twice status r :
  admin.set_status status (admin.set_status status r) = admin.set_status status r.
Proof. reflexivity. Qed.

Lemma find_approved_table request_id table :
  find (λ r, models.BorrowRequest.id r =? request_id) (approved_table request_id table)
  = admin.set_status "approved"
      <$> find (λ r, models.BorrowRequest.id r =? request_id) table.
Proof.
  induction table as [|r table IH]; [done|]. simpl.
  destruct (models.BorrowRequest.id r =? request_id) eqn:E; simpl.
  - by rewrite E.
  - by rewrite E.
Qed.

Lemma approved_table_twice request_id table :
  approved_table request_id (approved_table request_id table)
  = approved_table request_id table.
Proof.
  unfold approved_table. rewrite map_map. apply map_ext. intros r.
  destruct (models.BorrowRequest.id r =? request_id) eqn:E; simpl; by rewrite E.
Qed.

(** What [approve_request] does for an admin, by the lookup it makes. *)
Lemma approve_request_run request_id current_user db :
  models.User.is_admin current_user = true →
  admin.approve_request request_id current_user db =
  match find (λ r, models.BorrowRequest.id r =? request_id) (borrow_requests db) with
  | None => (Raise (HTTPException 404 "Request not found"), db)
  | Some r =>
    (Return (admin.set_status "approved" r),
     mkSession (users db) (books db) (approved_table request_id (borrow_requests db)))
  end.
Proof.
  intros H. unfold admin.approve_request. rewrite H. simpl.
  unfold admin.commit_status. run_handler.
  destruct (find _ (borrow_requests db)) as [r|] eqn:E; [|done]. simpl.
  apply find_some in E as [_ ->%Z.eqb_eq]. done.
Qed.

(** C3: for an admin and a stored request, [approve_request] succeeds on
    every store (it looks at no other request), returns the request with
    status "approved" and rewrites only the status of the rows with that id;
    a second approval returns the same record and leaves the store as the
    first one left it. *)
Theorem approve_unconditional_idempotent request_id current_user db :
  models.User.is_admin current_user = true →
  (∃ r, In r (borrow_requests db) ∧ models.BorrowRequest.id r = request_id) →
  ∃ r' db',
    admin.approve_request request_id current_user db = (Return r', db')
    ∧ db' = mkSession (users db) (books db)
                      (approved_table request_id (borrow_requests db))
    ∧ models.BorrowRequest.id r' = request_id
    ∧ models.BorrowRequest.status r' = "approved"
    ∧ admin.approve_request request_id current_user db' = (Return r', db').
Proof.
  intros Hadmin [r [Hin Hid]].
  assert (∃ r0, find (λ r, models.BorrowRequest.id r =? request_id)
                     (borrow_requests db) = Some r0) as [r0 E].
  { apply find_Some_ex. exists r. split; [done|]. by apply Z.eqb_eq. }
  exists (admin.set_status "approved" r0). eexists.
  rewrite approve_request_run, E by done.
  split; [reflexivity|]. split; [reflexivity|].
  apply find_some in E as E'. destruct E' as [_ Hr0%Z.eqb_eq].
  split; [done|]. split; [done|].
  rewrite approve_request_run by done. simpl.
  by rewrite find_approved_table, E, approved_table_twice.
Qed.

Lemma approve_unconditional_idempotent_witness :
  ∃ r' db',
    admin.approve_request 2 Fixture.root Fixture.db_overlap = (Return r', db')
    ∧ db' = mkSession (users Fixture.db_overlap) (books Fixture.db_overlap)
                      (approved_table 2 (borrow_requests Fixture.db_overlap))
    ∧ models.BorrowRequest.id r' = 2
    ∧ models.BorrowRequest.status r' = "approved"
    ∧ admin.approve_request 2 Fixture.root db' = (Return r', db').
Proof.
  apply (approve_unconditional_idempotent 2 Fixture.root Fixture.db_overlap).
  - reflexivity.
  - exists Fixture.pending_15_25. split; [right; left|]; reflexivity.
Defined.

(** Approving a pending request that overlaps an approved one of the same
    book leaves two approved requests with overlapping periods. *)
Example approve_overlapping :
  (admin.approve_request 2 Fixture.root Fixture.db_overlap).2
  = mkSession [Fixture.root; Fixture.alice] [Fixture.book_B]
      [Fixture.approved_10_20;
       models.BorrowRequest.make 2 2 1 (Fixture.jan 15) (Fixture.jan 25) "approved"].
Proof. reflexivity. Qed.

(** ** Passwords *)

Lemma find_app_None {T} (p : T → bool) (l : list T) (x : T) :
  find p l = None → find p (l ++ [x]) = if p x then Some x else None.
Proof.
  induction l as [|y l IH]; simpl; [done|].
  destruct (p y); [done|]. exact IH.
Qed.

Lemma email_lookup_free email db :
  ¬ email_taken email db →
  find (λ u, String.eqb (models.User.email u) email) (users db) = None.
Proof.
  intros Hfree. apply find_None_all. intros u Hin.
  destruct (String.eqb_spec (models.User.email u) email) as [E|]; [|done].
  destruct Hfree. by exists u.
Qed.

(** A user is created and then logs in with the same email and password. *)
Lemma create_then_authenticate {ctx : CryptContext} user is_admin db :
  ¬ email_taken (schemas.UserCreate.email user) db →
  ∃ u db',
    crud.create_user user is_admin db = (Return u, db')
    ∧ In u (users db')
    ∧ models.User.password u = schemas.UserCreate.password user
    ∧ auth.authenticate_user (schemas.UserCreate.email user)
        (schemas.UserCreate.password user) db'
      = match auth.verify_password (schemas.UserCreate.password user)
                (schemas.UserCreate.password user) with
        | Raise e => (Raise e, db')
        | Return true => (Return (Some u), db')
        | Return false => (Return None, db')
        end.
Proof.
  intros Hfree. unfold crud.create_user, add_user.
  destruct (existsb _ _) eqn:E; [by apply existsb_email_taken in E|].
  eexists _, _. split; [reflexivity|]. simpl.
  split; [apply in_or_app; right; by left|]. split; [done|].
  unfold auth.authenticate_user. run_handler.
  rewrite find_app_None by by apply email_lookup_free. simpl.
  rewrite String.eqb_refl.
  by destruct (auth.verify_password _ _) as [[]|].
Qed.

(** C2 (as the code has it): [create_user] stores the password of the
    request body itself, not a digest of it; when the scheme does not take
    that plaintext for one of its digests, a later [authenticate_user] with
    the same email and password raises instead of returning the user. *)
Theorem create_user_stores_plaintext {ctx : CryptContext} user is_admin db :
  ¬ email_taken (schemas.UserCreate.email user) db →
  identify (schemas.UserCreate.password user) = false →
  ∃ u db',
    crud.create_user user is_admin db = (Return u, db')
    ∧ In u (users db')
    ∧ models.User.password u = schemas.UserCreate.password user
    ∧ auth.authenticate_user (schemas.UserCreate.email user)
        (schemas.UserCreate.password user) db'
      = (Raise UnknownHashError, db').
Proof.
  intros Hfree Hid.
  destruct (create_then_authenticate user is_admin db Hfree)
    as (u & db' & Hrun & Hin & Hpw & Hauth).
  exists u, db'. repeat (split; [done|]). rewrite Hauth.
  unfold auth.verify_password. by rewrite Hid.
Qed.

Lemma create_user_stores_plaintext_witness :
  ∃ u db',
    crud.create_user Fixture.bob_body (Some false) Fixture.db_pending = (Return u, db')
    ∧ In u (users db')
    ∧ models.User.password u = "pw"
    ∧ auth.authenticate_user (ctx := Fixture.toy_context) "bob@example.com" "pw" db'
      = (Raise UnknownHashError, db').
Proof.
  apply (create_user_stores_plaintext (ctx := Fixture.toy_context)
           Fixture.bob_body (Some false) Fixture.db_pending).
  - intros [u [[<-|[<-|[]]] Hu]]; vm_compute in Hu; discriminate.
  - reflexivity.
Defined.

(** ** Tokens *)

Lemma convert_time_claims_exp claims :
  jwt.convert_time_claims claims !! "exp" = jwt.intdate <$> claims !! "exp".
Proof.
  unfold jwt.convert_time_claims.
  by rewrite !lookup_alter_ne, lookup_alter_eq by done.
Qed.

Lemma json_dumps_raises claims k v :
  claims !! k = Some v → jwt.to_json v = None → jwt.json_dumps claims = None.
Proof.
  intros Hk Hv. unfold jwt.json_dumps.
  rewrite bool_decide_eq_false_2; [done|].
  intros Hall. specialize (Hall k v Hk). simpl in Hall.
  rewrite Hv in Hall. by destruct Hall.
Qed.

(** A duration under "exp" is not converted by [encode] and has no JSON
    encoding. *)
Lemma encode_timedelta_raises {signer : Signer} claims key algorithm d :
  claims !! "exp" = Some (PyTimedelta d) →
  jwt.encode claims key algorithm = Raise TypeError.
Proof.
  intros Hexp. unfold jwt.encode.
  rewrite (json_dumps_raises _ "exp" (PyTimedelta d)); [done| |done].
  by rewrite convert_time_claims_exp, Hexp.
Qed.

Lemma expire_falsy expires_delta clk :
  auth.truthy expires_delta = false →
  auth.expire expires_delta clk = Return (PyTimedelta (15 * 60)).
Proof.
  intros Hf. unfold auth.expire. destruct expires_delta; [by rewrite Hf|done].
Qed.

Lemma create_access_token_falsy {signer : Signer} data expires_delta clk :
  auth.truthy expires_delta = false →
  auth.create_access_token data expires_delta clk = Raise TypeError.
Proof.
  intros Hf. unfold auth.create_access_token.
  rewrite expire_falsy by done. simpl.
  apply (encode_timedelta_raises _ _ _ (15 * 60)).
  by rewrite lookup_insert_eq.
Qed.

(** C4 (as the code has it): issued without a ttl, the "exp" claim is the
    bare duration of 15 minutes, not the issuance time plus 15 minutes, and
    the encoder raises on it: no token is issued. *)
Theorem default_expiry_is_bare_duration {signer : Signer} data clk :
  auth.expire None clk = Return (PyTimedelta 900)
  ∧ auth.expire None clk ≠ Return (PyDatetime (local_now clk + 900))
  ∧ auth.create_access_token data None clk = Raise TypeError.
Proof.
  split; [done|]. split; [done|]. by apply create_access_token_falsy.
Qed.

Lemma authenticate_user_reads {ctx : CryptContext} email password db :
  (auth.authenticate_user email password db).2 = db.
Proof.
  unfold auth.authenticate_user. run_handler.
  destruct (find _ (users db)); [|done].
  by destruct (auth.verify_password _ _) as [[]|].
Qed.

(** [login] by the outcome of [authenticate_user]. *)
Lemma login_run {ctx : CryptContext} {signer : Signer} email password clk db :
  admin.login email password clk db =
  match (auth.authenticate_user email password db).1 with
  | Raise e => (Raise e, db)
  | Return None => (Raise (HTTPException 401 "Invalid credentials"), db)
  | Return (Some _) => (Raise TypeError, db)
  end.
Proof.
  pose proof (authenticate_user_reads email password db) as Hdb.
  unfold admin.login, mbind, M_bind.
  destruct (auth.authenticate_user email password db) as [[[u|]|e] db'];
    simpl in *; subst db'; [|done..].
  by rewrite create_access_token_falsy.
Qed.

(** C5 (as the code has it): [login] issues its token without a ttl, so it
    raises on every input and leaves no token to verify: "Invalid
    credentials" when the user is unknown or the password wrong, the
    library's error when the stored password is no digest, and [TypeError]
    when the credentials are right. *)
Theorem login_never_issues {ctx : CryptContext} {signer : Signer}
    email password clk db :
  ∃ e, admin.login email password clk db = (Raise e, db)
       ∧ ((auth.authenticate_user email password db).1 = Raise e
          ∨ ((auth.authenticate_user email password db).1 = Return None
             ∧ e = HTTPException 401 "Invalid credentials")
          ∨ ((∃ u, (auth.authenticate_user email password db).1 = Return (Some u))
             ∧ e = TypeError)).
Proof.
  rewrite login_run.
  destruct (auth.authenticate_user email password db).1 as [[u|]|e]; eauto 10.
Qed.

(** Right credentials against a stored digest: the token creation raises. *)
Example login_right_credentials :
  auth.authenticate_user (ctx := Fixture.toy_context)
    "carol@example.com" "pw" Fixture.db_carol
  = (Return (Some Fixture.carol), Fixture.db_carol)
  ∧ admin.login (ctx := Fixture.toy_context) (signer := Fixture.toy_signer)
      "carol@example.com" "pw" Fixture.noon Fixture.db_carol
    = (Raise TypeError, Fixture.db_carol).
Proof. split; [reflexivity|]. by rewrite login_run. Qed.

(** *** Issuance with an explicit ttl

    The verifier side is sound: with a non-zero ttl given, the token is
    issued and resolves to the user whose id it carries. No handler of the
    repository issues a token this way. *)

Lemma int_of_str_str n : int_of_str (str n) = Some n.
Proof.
  unfold int_of_str, str.
  rewrite NilZero.isi.
  - simpl. by rewrite DecimalZ.of_to.
  - destruct n; simpl; [done| |done].
    intros [= E]. by apply DecimalPos.Unsigned.to_uint_nonnil in E.
  - destruct n; simpl; [done..|].
    intros [= E]. by apply DecimalPos.Unsigned.to_uint_nonnil in E.
Qed.

Lemma find_pointwise {T} (p q : T → bool) (l : list T) :
  (∀ x, p x = q x) → find p l = find q l.
Proof.
  intros Hpq. induction l as [|x l IH]; simpl; [done|]. by rewrite Hpq, IH.
Qed.

Lemma datetime_add_in_range t d :
  datetime_in_range (t + d) → auth.datetime_add t d = Return (t + d).
Proof.
  intros [Hlo Hhi]. unfold auth.datetime_add.
  destruct (Z.leb_spec auth.datetime_min (t + d)); [|lia].
  destruct (Z.leb_spec (t + d) auth.datetime_max); [done|lia].
Qed.

Lemma datetime_add_out_of_range t d :
  ¬ datetime_in_range (t + d) → auth.datetime_add t d = Raise OverflowError.
Proof.
  intros Hout. unfold auth.datetime_add.
  destruct (Z.leb_spec auth.datetime_min (t + d)); [|done].
  destruct (Z.leb_spec (t + d) auth.datetime_max); [|done].
  destruct Hout. by split.
Qed.

Lemma encode_subject_datetime {signer : Signer} s t key algorithm :
  jwt.encode (<["exp" := PyDatetime t]> {["sub" := PyStr s]}) key algorithm
  = Return (mkToken algorithm (<["exp" := JInt t]> {["sub" := JStr s]})
              (hmac key algorithm (<["exp" := JInt t]> {["sub" := JStr s]}))).
Proof.
  unfold jwt.encode, jwt.convert_time_claims.
  rewrite alter_insert_eq, !alter_insert_ne, !alter_singleton_ne by done. simpl.
  unfold jwt.json_dumps. rewrite bool_decide_eq_true_2.
  - by rewrite (omap_insert_Some _ _ _ _ (JInt t)), (omap_singleton_Some _ _ _ (JStr s)).
  - apply map_Forall_insert_2; [by eexists|].
    apply map_Forall_singleton. by eexists.
Qed.

(** With a ttl that is not zero, the token carries the subject and the
    expiry, and nothing else. *)
Lemma create_access_token_explicit {signer : Signer} s d clk :
  d ≠ 0 →
  datetime_in_range (local_now clk + d) →
  auth.create_access_token {["sub" := PyStr s]} (Some d) clk
  = Return (mkToken auth.ALGORITHM
              (<["exp" := JInt (local_now clk + d)]> {["sub" := JStr s]})
              (hmac auth.SECRET_KEY auth.ALGORITHM
                 (<["exp" := JInt (local_now clk + d)]> {["sub" := JStr s]}))).
Proof.
  intros Hd Hrange. unfold auth.create_access_token, auth.expire, auth.truthy.
  destruct (Z.eqb_spec d 0) as [|_]; [done|]. simpl.
  rewrite datetime_add_in_range by done. simpl.
  apply encode_subject_datetime.
Qed.

(** A payload of a subject and an integer expiry that has not passed goes
    through every validation of [decode]. *)
Lemma decode_subject_expiry {signer : Signer} {platform : Platform} s t clk :
  utc_now clk ≤ t →
  jwt.decode
    (mkToken auth.ALGORITHM (<["exp" := JInt t]> {["sub" := JStr s]})
       (hmac auth.SECRET_KEY auth.ALGORITHM (<["exp" := JInt t]> {["sub" := JStr s]})))
    auth.SECRET_KEY [auth.ALGORITHM] clk
  = Return (<["exp" := JInt t]> {["sub" := JStr s]}).
Proof.
  intros Hnow. unfold jwt.decode. simpl. rewrite String.eqb_refl. simpl.
  unfold jwt.validate_iat, jwt.validate_nbf, jwt.validate_exp, jwt.validate_aud,
    jwt.validate_sub, jwt.validate_jti, jwt.validate_at_hash, jwt.time_claim.
  rewrite lookup_insert_eq.
  rewrite !lookup_insert_ne, !lookup_singleton_ne, lookup_singleton_eq by done.
  simpl. by destruct (Z.ltb_spec t (utc_now clk)); [lia|].
Qed.

(** X3: a token issued for the subject [str s] with a ttl that is not zero
    and keeps the expiry within the years a [datetime] holds, verified while
    the verifier's clock has not passed the issuer's clock plus the ttl,
    carries that subject and that expiry; on an engine that reads the
    numeral [str s] as [s], [get_current_user] resolves it to the first
    stored user whose id is [s] (the 401 when there is none). *)
Lemma token_round_trip {signer : Signer} {platform : Platform} (s ttl : Z) clk db :
  ttl ≠ 0 →
  datetime_in_range (local_now clk + ttl) →
  utc_now clk ≤ local_now clk + ttl →
  reads_as (str s) s →
  ∃ tok,
    auth.create_access_token {["sub" := PyStr (str s)]} (Some ttl) clk = Return tok
    ∧ tok_claims tok !! "sub" = Some (JStr (str s))
    ∧ tok_claims tok !! "exp" = Some (JInt (local_now clk + ttl))
    ∧ auth.get_current_user tok clk db
      = match find (λ u, models.User.id u =? s) (users db) with
        | Some u => (Return u, db)
        | None => (Raise auth.credentials_exception, db)
        end.
Proof.
  intros Httl Hrange Hnow (matches & Hop & Hm).
  rewrite create_access_token_explicit by done.
  eexists. split; [reflexivity|]. simpl.
  split; [by rewrite lookup_insert_ne, lookup_singleton_eq|].
  split; [by rewrite lookup_insert_eq|].
  unfold auth.get_current_user. rewrite decode_subject_expiry by done.
  rewrite lookup_insert_ne, lookup_singleton_eq by done. rewrite Hop.
  unfold mbind, M_bind, query_first.
  rewrite (find_pointwise _ (λ u, models.User.id u =? s)) by (intros u; apply Hm).
  by destruct (find _ (users db)).
Qed.

Lemma token_round_trip_witness :
  ∃ tok,
    auth.create_access_token (signer := Fixture.toy_signer)
      {["sub" := PyStr (str 2)]} (Some 900) Fixture.noon = Return tok
    ∧ tok_claims tok !! "sub" = Some (JStr (str 2))
    ∧ tok_claims tok !! "exp" = Some (JInt (local_now Fixture.noon + 900))
    ∧ auth.get_current_user (signer := Fixture.toy_signer)
        (platform := Fixture.toy_platform) tok Fixture.noon Fixture.db_pending
      = match find (λ u, models.User.id u =? 2) (users Fixture.db_pending) with
        | Some u => (Return u, Fixture.db_pending)
        | None => (Raise auth.credentials_exception, Fixture.db_pending)
        end.
Proof.
  apply (token_round_trip (signer := Fixture.toy_signer)
           (platform := Fixture.toy_platform) 2 900 Fixture.noon Fixture.db_pending).
  - discriminate.
  - split; vm_compute; discriminate.
  - vm_compute. discriminate.
  - eexists. split; [reflexivity|]. done.
Defined.

(** The stand-in platform reads every numeral [str n] as [n]. *)
Lemma toy_platform_reads n : reads_as (platform := Fixture.toy_platform) (str n) n.
Proof.
  eexists. split; [|done]. simpl. by rewrite int_of_str_str.
Qed.

(** A ttl of three million days takes the expiry past the year 9999. *)
Example issuance_overflow :
  auth.create_access_token (signer := Fixture.toy_signer)
    {["sub" := PyStr "2"]} (Some (3000000 * 86400)) Fixture.noon
  = Raise OverflowError.
Proof. reflexivity. Qed.

(** * Further properties of the handlers *)

(** ** Issuing and logging in *)

(** X4: for a claims dictionary holding a string subject,
    [create_access_token] returns a token exactly when a ttl is given, is
    not the zero duration and keeps the expiry within the years a
    [datetime] holds. The zero duration is as false as [None] in the
    conditional expression and ends in the same [TypeError]; an expiry out
    of range ends in the [OverflowError] of the addition. *)
Theorem issuance_needs_nonzero_ttl {signer : Signer} s expires_delta clk :
  ((∃ tok, auth.create_access_token {["sub" := PyStr s]} expires_delta clk = Return tok)
   ↔ ∃ d, expires_delta = Some d ∧ d ≠ 0 ∧ datetime_in_range (local_now clk + d))
  ∧ (auth.create_access_token {["sub" := PyStr s]} expires_delta clk = Raise TypeError
     ↔ expires_delta = None ∨ expires_delta = Some 0)
  ∧ (auth.create_access_token {["sub" := PyStr s]} expires_delta clk
       = Raise OverflowError
     ↔ ∃ d, expires_delta = Some d ∧ d ≠ 0 ∧ ¬ datetime_in_range (local_now clk + d)).
Proof.
  destruct expires_delta as [d|].
  - destruct (Z.eq_dec d 0) as [->|Hd].
    + rewrite create_access_token_falsy by done.
      split; [|split].
      * split; [by intros [? ?]|]. by intros (? & [= <-] & ? & _).
      * split; auto.
      * split; [done|]. by intros (? & [= <-] & ? & _).
    + destruct (decide (auth.datetime_min ≤ local_now clk + d ≤ auth.datetime_max))
        as [Hin|Hout].
      * rewrite create_access_token_explicit by done.
        split; [|split].
        -- split; eauto.
        -- split; [done|]. by intros [|[= ->]].
        -- split; [done|]. by intros (? & [= <-] & _ & Hout).
      * unfold auth.create_access_token, auth.expire, auth.truthy.
        destruct (Z.eqb_spec d 0) as [|_]; [done|]. simpl.
        rewrite datetime_add_out_of_range by done. simpl.
        split; [|split].
        -- split; [by intros [? ?]|]. by intros (? & [= <-] & _ & Hin).
        -- split; [done|]. by intros [|[= ->]].
        -- split; eauto.
  - rewrite create_access_token_falsy by done.
    split; [|split].
    + split; [by intros [? ?]|]. by intros (? & ? & _).
    + split; auto.
    + split; [done|]. by intros (? & ? & _).
Qed.

(** [authenticate_user] by its lookup. *)
Lemma authenticate_user_run {ctx : CryptContext} email password db :
  auth.authenticate_user email password db =
  match find (λ u, String.eqb (models.User.email u) email) (users db) with
  | None => (Return None, db)
  | Some u =>
    if identify (models.User.password u)
    then match check password (models.User.password u) with
         | Some true => (Return (Some u), db)
         | Some false => (Return None, db)
         | None => (Raise ValueError, db)
         end
    else (Raise UnknownHashError, db)
  end.
Proof.
  unfold auth.authenticate_user, auth.verify_password. run_handler.
  destruct (find _ (users db)) as [u|]; [|done].
  destruct (identify _); [|done]. by destruct (check _ _) as [[]|].
Qed.

(** X5: [authenticate_user] never changes the store. A user it returns is
    stored under the given email and the password checks against the stored
    string; [None] means that no user has the email or that the check of a
    user with it fails. It raises the library's exceptions only: for a user
    with the email whose stored password is not identified as a digest
    ([UnknownHashError]), or is identified and cannot be read
    ([ValueError]). *)
Theorem authenticate_user_sound {ctx : CryptContext} email password db :
  match auth.authenticate_user email password db with
  | (Return (Some u), db') =>
      db' = db ∧ In u (users db) ∧ models.User.email u = email
      ∧ identify (models.User.password u) = true
      ∧ check password (models.User.password u) = Some true
  | (Return None, db') =>
      db' = db
      ∧ (¬ email_taken email db
         ∨ ∃ u, In u (users db) ∧ models.User.email u = email
                ∧ check password (models.User.password u) = Some false)
  | (Raise e, db') =>
      db' = db
      ∧ ∃ u, In u (users db) ∧ models.User.email u = email
             ∧ ((e = UnknownHashError ∧ identify (models.User.password u) = false)
                ∨ (e = ValueError ∧ identify (models.User.password u) = true
                   ∧ check password (models.User.password u) = None))
  end.
Proof.
  rewrite authenticate_user_run.
  destruct (find _ (users db)) as [u|] eqn:E.
  - apply find_some in E as [Hin Hu%String.eqb_eq].
    destruct (identify _) eqn:Hid; [|by eauto 10].
    destruct (check _ _) as [[]|] eqn:Hck.
    + done.
    + split; [done|]. right. eauto.
    + split; [done|]. exists u. auto 10.
  - split; [done|]. left. intros [u [Hin Hu]].
    apply (find_none _ _ E) in Hin. by apply String.eqb_neq in Hin.
Qed.

(** A stored password that starts as a digest does and is none: the login
    raises [ValueError]. *)
Example authenticate_malformed_digest :
  auth.authenticate_user (ctx := Fixture.toy_context) "dave@example.com" "pw"
    (mkSession [models.User.make 1 "dave@example.com" "$2b$12abc" false] [] [])
  = (Raise ValueError,
     mkSession [models.User.make 1 "dave@example.com" "$2b$12abc" false] [] []).
Proof. reflexivity. Qed.

(** X6: [login] with an email no user has raises the 401 "Invalid
    credentials" and leaves the store as it was. *)
Theorem login_unknown_email {ctx : CryptContext} {signer : Signer}
    email password clk db :
  ¬ email_taken email db →
  admin.login email password clk db
  = (Raise (HTTPException 401 "Invalid credentials"), db).
Proof.
  intros Hfree. rewrite login_run, authenticate_user_run.
  by rewrite email_lookup_free.
Qed.

Lemma login_unknown_email_witness :
  admin.login (ctx := Fixture.toy_context) (signer := Fixture.toy_signer)
    "nobody@example.com" "pw" Fixture.noon Fixture.db_pending
  = (Raise (HTTPException 401 "Invalid credentials"), Fixture.db_pending).
Proof.
  apply (login_unknown_email (ctx := Fixture.toy_context)
           (signer := Fixture.toy_signer)).
  intros [u [[<-|[<-|[]]] Hu]]; vm_compute in Hu; discriminate.
Defined.

(** ** Creating users and books *)

Lemma no_admin_lookup db :
  ¬ admin_exists db →
  find (λ u, Bool.eqb (models.User.is_admin u) true) (users db) = None.
Proof.
  intros Hno. destruct (find _ (users db)) as [u|] eqn:E; [|done].
  destruct Hno. apply find_is_admin. eauto.
Qed.

Lemma add_user_free email password is_admin db :
  ¬ email_taken email db →
  add_user email password is_admin db
  = (Return (models.User.make (next_id (map models.User.id (users db)))
               email password is_admin),
     mkSession (users db ++ [models.User.make (next_id (map models.User.id (users db)))
                               email password is_admin])
               (books db) (borrow_requests db)).
Proof.
  intros Hfree. unfold add_user.
  destruct (existsb _ _) eqn:E; [|done]. by apply existsb_email_taken in E.
Qed.

Lemma add_user_taken email password is_admin db :
  email_taken email db →
  add_user email password is_admin db = (Raise IntegrityError, db).
Proof.
  intros Htaken%existsb_email_taken. unfold add_user. by rewrite Htaken.
Qed.

(** X7: on a store without an admin and for a free email,
    [create_admin_user] stores the user with [is_admin = true] whatever the
    body's [is_admin] says, and from then on every call of
    [create_admin_user] is refused with the 400. *)
Theorem create_admin_user_once user user' db :
  ¬ admin_exists db →
  ¬ email_taken (schemas.UserCreate.email user) db →
  ∃ u db',
    admin.create_admin_user user db = (Return u, db')
    ∧ users db' = (users db ++ [u])%list
    ∧ models.User.email u = schemas.UserCreate.email user
    ∧ models.User.is_admin u = true
    ∧ admin.create_admin_user user' db' = (Raise admin_already_exists, db').
Proof.
  intros Hno Hfree. eexists _, _.
  unfold admin.create_admin_user at 1. run_handler.
  rewrite (no_admin_lookup db Hno). unfold crud.create_user.
  rewrite add_user_free by done. simpl.
  split; [reflexivity|]. simpl. repeat (split; [done|]).
  unfold admin.create_admin_user. run_handler.
  by rewrite find_app_None by by apply no_admin_lookup.
Qed.

Lemma create_admin_user_once_witness :
  ∃ u db',
    admin.create_admin_user Fixture.bob_body (mkSession [Fixture.alice] [] [])
    = (Return u, db')
    ∧ users db' = ([Fixture.alice] ++ [u])%list
    ∧ models.User.email u = "bob@example.com"
    ∧ models.User.is_admin u = true
    ∧ admin.create_admin_user Fixture.bob_body db' = (Raise admin_already_exists, db').
Proof.
  apply (create_admin_user_once Fixture.bob_body Fixture.bob_body
           (mkSession [Fixture.alice] [] [])).
  - intros [u [[<-|[]] Hu]]. discriminate Hu.
  - intros [u [[<-|[]] Hu]]. vm_compute in Hu. discriminate Hu.
Defined.

(** X8: no handler looks for a stored email before it creates a user. For
    an email that is taken, the commit of [crud.create_user] raises
    [IntegrityError], which is no [HTTPException], and stores nothing; so do
    the admin router's [create_user] for an admin caller and
    [create_admin_user] on a store without an admin. *)
Theorem create_user_duplicate_email user is_admin current_user db :
  email_taken (schemas.UserCreate.email user) db →
  crud.create_user user is_admin db = (Raise IntegrityError, db)
  ∧ (models.User.is_admin current_user = true →
     admin.create_user user current_user db = (Raise IntegrityError, db))
  ∧ (¬ admin_exists db →
     admin.create_admin_user user db = (Raise IntegrityError, db)).
Proof.
  intros Htaken.
  assert (∀ flag, crud.create_user user flag db = (Raise IntegrityError, db)) as Hc.
  { intros flag. unfold crud.create_user. by apply add_user_taken. }
  split; [apply Hc|]. split.
  - intros Hadmin. unfold admin.create_user. rewrite Hadmin. apply Hc.
  - intros Hno. unfold admin.create_admin_user. run_handler.
    rewrite (no_admin_lookup db Hno). apply Hc.
Qed.

Lemma create_user_duplicate_email_witness :
  crud.create_user
    (schemas.UserCreate.make "alice@example.com" "other" false) None Fixture.db_pending
  = (Raise IntegrityError, Fixture.db_pending)
  ∧ (models.User.is_admin Fixture.root = true →
     admin.create_user
       (schemas.UserCreate.make "alice@example.com" "other" false)
       Fixture.root Fixture.db_pending
     = (Raise IntegrityError, Fixture.db_pending))
  ∧ (¬ admin_exists Fixture.db_pending →
     admin.create_admin_user
       (schemas.UserCreate.make "alice@example.com" "other" false) Fixture.db_pending
     = (Raise IntegrityError, Fixture.db_pending)).
Proof.
  apply (create_user_duplicate_email
           (schemas.UserCreate.make "alice@example.com" "other" false)
           None Fixture.root Fixture.db_pending).
  exists Fixture.alice. split; [right; left|]; reflexivity.
Defined.

(** The key the store assigns is above every key of the table. *)
Lemma next_id_above (ids : list Z) (x : Z) : In x ids → x < next_id ids.
Proof.
  unfold next_id. induction ids as [|y ids IH]; simpl; [done|].
  intros [->|Hin]; [lia|]. specialize (IH Hin). lia.
Qed.

Lemma next_id_fresh (ids : list Z) : ¬ In (next_id ids) ids.
Proof. intros H%next_id_above. lia. Qed.

Lemma filter_all {T} (l : list T) : List.filter (λ _, true) l = l.
Proof. induction l as [|x l IH]; simpl; [done|]. by rewrite IH. Qed.

Lemma integer_fits_32 (n : Z) : - 2 ^ 31 ≤ n < 2 ^ 31 → integer_fits n = true.
Proof.
  intros [Hlo Hhi]. unfold integer_fits.
  apply andb_true_iff. split; [apply Z.leb_le|apply Z.ltb_lt]; lia.
Qed.

(** X9: for an admin and a number of copies that fits 32 bits signed (what
    an [Integer] column holds on every engine), [add_book] succeeds: it
    appends a book with the title, author and number of copies of the body
    as they are (a negative number of copies is stored like any other),
    under a key no stored book has, and touches no other table;
    [get_books], which asks for no caller, then lists the earlier books
    followed by the new one. *)
Theorem add_book_then_get_books book current_user db :
  models.User.is_admin current_user = true →
  - 2 ^ 31 ≤ schemas.BookCreate.copies book < 2 ^ 31 →
  ∃ b db',
    admin.add_book book current_user db = (Return b, db')
    ∧ db' = mkSession (users db) (books db ++ [b]) (borrow_requests db)
    ∧ models.Book.title b = schemas.BookCreate.title book
    ∧ models.Book.author b = schemas.BookCreate.author book
    ∧ models.Book.copies b = schemas.BookCreate.copies book
    ∧ (∀ b0, In b0 (books db) → models.Book.id b0 ≠ models.Book.id b)
    ∧ user.get_books db' = (Return (books db ++ [b])%list, db').
Proof.
  intros Hadmin Hfits%integer_fits_32.
  unfold admin.add_book, add_book_row. rewrite Hadmin, Hfits. simpl.
  eexists _, _. split; [reflexivity|]. split; [reflexivity|]. simpl.
  repeat (split; [done|]). split.
  - intros b0 Hin Heq.
    apply (next_id_fresh (map models.Book.id (books db))).
    rewrite <- Heq. by apply in_map.
  - unfold user.get_books, query_all. simpl. by rewrite filter_all.
Qed.

Lemma add_book_then_get_books_witness :
  ∃ b db',
    admin.add_book (schemas.BookCreate.make "U" "B" (-3)) Fixture.root Fixture.db_pending
    = (Return b, db')
    ∧ db' = mkSession (users Fixture.db_pending) (books Fixture.db_pending ++ [b])
                      (borrow_requests Fixture.db_pending)
    ∧ models.Book.title b = "U"
    ∧ models.Book.author b = "B"
    ∧ models.Book.copies b = -3
    ∧ (∀ b0, In b0 (books Fixture.db_pending) → models.Book.id b0 ≠ models.Book.id b)
    ∧ user.get_books db' = (Return (books Fixture.db_pending ++ [b])%list, db').
Proof.
  apply (add_book_then_get_books (schemas.BookCreate.make "U" "B" (-3))
           Fixture.root Fixture.db_pending).
  - reflexivity.
  - split; vm_compute; [discriminate|reflexivity].
Defined.

(** A number of copies beyond 64 bits is refused by the driver: nothing is
    stored. *)
Example add_book_too_many_copies :
  admin.add_book (schemas.BookCreate.make "U" "B" (2 ^ 63)) Fixture.root
    Fixture.db_pending
  = (Raise OverflowError, Fixture.db_pending).
Proof. reflexivity. Qed.

(** ** Approval: what it refuses and what it leaves alone *)

(** X10: for an admin, [approve_request] raises the 404 "Request not
    found" exactly when no stored request has the id, and then leaves the
    store as it was. *)
Theorem approve_request_not_found request_id current_user db :
  models.User.is_admin current_user = true →
  ((admin.approve_request request_id current_user db).1 = Raise request_not_found
   ↔ ¬ ∃ r, In r (borrow_requests db) ∧ models.BorrowRequest.id r = request_id)
  ∧ ((admin.approve_request request_id current_user db).1 = Raise request_not_found
     → (admin.approve_request request_id current_user db).2 = db).
Proof.
  intros Hadmin. rewrite approve_request_run by done.
  destruct (find _ (borrow_requests db)) as [r|] eqn:E; simpl.
  - split; [|done]. split; [done|]. intros []. exists r.
    by apply find_some in E as [? ?%Z.eqb_eq].
  - split; [|done]. split; [|done]. intros _ [r [Hin Hid]].
    apply (find_none _ _ E) in Hin. apply Z.eqb_neq in Hin. done.
Qed.

Lemma approve_request_not_found_witness :
  ((admin.approve_request 7 Fixture.root Fixture.db_overlap).1 = Raise request_not_found
   ↔ ¬ ∃ r, In r (borrow_requests Fixture.db_overlap) ∧ models.BorrowRequest.id r = 7)
  ∧ ((admin.approve_request 7 Fixture.root Fixture.db_overlap).1 = Raise request_not_found
     → (admin.approve_request 7 Fixture.root Fixture.db_overlap).2 = Fixture.db_overlap).
Proof.
  apply (approve_request_not_found 7 Fixture.root Fixture.db_overlap). reflexivity.
Defined.

Lemma approval_step_refl request_id (table : list models.BorrowRequest.t) :
  Forall2 (approval_step request_id) table table.
Proof.
  induction table as [|r table IH]; constructor; [|done].
  unfold approval_step. auto 10.
Qed.

Lemma approval_step_table request_id (table : list models.BorrowRequest.t) :
  Forall2 (approval_step request_id) table (approved_table request_id table).
Proof.
  induction table as [|r table IH]; simpl; constructor; [|done].
  unfold approval_step.
  destruct (Z.eqb_spec (models.BorrowRequest.id r) request_id); simpl; auto 10.
Qed.

(** X11: whoever calls it and however it ends, [approve_request] leaves
    the users and the books as they were and keeps every request in its
    place with its id, user, book and dates. A row is either untouched or
    has the given id and status "approved": no row is removed, and no
    approved row goes back to pending. *)
Theorem approve_request_frame request_id current_user db :
  users (admin.approve_request request_id current_user db).2 = users db
  ∧ books (admin.approve_request request_id current_user db).2 = books db
  ∧ Forall2 (approval_step request_id)
      (borrow_requests db)
      (borrow_requests (admin.approve_request request_id current_user db).2).
Proof.
  destruct (models.User.is_admin current_user) eqn:Hadmin.
  - rewrite approve_request_run by done.
    destruct (find _ (borrow_requests db)); simpl.
    + repeat (split; [done|]). apply approval_step_table.
    + repeat (split; [done|]). apply approval_step_refl.
  - unfold admin.approve_request. rewrite Hadmin. simpl.
    repeat (split; [done|]). apply approval_step_refl.
Qed.

(** ** Requests and their listings *)

Lemma borrow_request_Return request current_user db r db' :
  user.borrow_request request current_user db = (Return r, db') →
  (∃ b, find (λ b, models.Book.id b =? schemas.BorrowRequestCreate.book_id request)
             (books db) = Some b)
  ∧ find (user.overlapping request) (borrow_requests db) = None
  ∧ r = pending_row request current_user db
  ∧ db' = mkSession (users db) (books db) (borrow_requests db ++ [r]).
Proof.
  rewrite borrow_request_run.
  destruct (find _ (books db)) as [b|]; [|done].
  destruct (find _ (borrow_requests db)); [done|].
  intros [= <- <-]. eauto.
Qed.

Lemma pending_row_fresh request current_user db r0 :
  In r0 (borrow_requests db) →
  models.BorrowRequest.id r0
  ≠ models.BorrowRequest.id (pending_row request current_user db).
Proof.
  intros Hin Heq.
  apply (next_id_fresh (map models.BorrowRequest.id (borrow_requests db))).
  unfold pending_row in Heq. simpl in Heq. rewrite <- Heq. by apply in_map.
Qed.

(** X12: after a successful [borrow_request], the caller's own
    [view_borrow_history] is what it was before followed by the new
    request, and every request it lists is the caller's. *)
Theorem borrow_then_history request current_user db r db' :
  user.borrow_request request current_user db = (Return r, db') →
  ∃ h,
    user.view_borrow_history current_user db = (Return h, db)
    ∧ user.view_borrow_history current_user db' = (Return (h ++ [r])%list, db')
    ∧ ∀ x, In x (h ++ [r])%list →
           models.BorrowRequest.user_id x = models.User.id current_user.
Proof.
  intros (_ & _ & -> & ->)%borrow_request_Return.
  eexists. split; [reflexivity|].
  unfold user.view_borrow_history, query_all. simpl.
  rewrite List.filter_app. simpl. rewrite Z.eqb_refl. split; [done|].
  intros x [Hx|[<-|[]]]%in_app_or; [|done].
  by apply filter_In in Hx as [_ ?%Z.eqb_eq].
Qed.

Lemma borrow_then_history_witness :
  ∃ h,
    user.view_borrow_history Fixture.alice Fixture.db_approved
    = (Return h, Fixture.db_approved)
    ∧ user.view_borrow_history Fixture.alice
        (user.borrow_request (Fixture.ask 1 20 25) Fixture.alice Fixture.db_approved).2
      = (Return (h ++ [pending_row (Fixture.ask 1 20 25) Fixture.alice
                         Fixture.db_approved])%list,
         (user.borrow_request (Fixture.ask 1 20 25) Fixture.alice Fixture.db_approved).2)
    ∧ ∀ x, In x (h ++ [pending_row (Fixture.ask 1 20 25) Fixture.alice
                         Fixture.db_approved])%list →
           models.BorrowRequest.user_id x = models.User.id Fixture.alice.
Proof.
  apply (borrow_then_history (Fixture.ask 1 20 25) Fixture.alice Fixture.db_approved).
  reflexivity.
Defined.

(** X13: for an admin, [view_user_borrow_history] raises the 404 exactly
    when no stored request belongs to the user id, whether or not a user
    with that id is stored; otherwise it returns that user's requests and
    nothing else. It never changes the store. *)
Theorem view_user_borrow_history_empty user_id current_user db :
  models.User.is_admin current_user = true →
  ((admin.view_user_borrow_history user_id current_user db).1 = Raise no_borrow_history
   ↔ ∀ r, In r (borrow_requests db) → models.BorrowRequest.user_id r ≠ user_id)
  ∧ match admin.view_user_borrow_history user_id current_user db with
    | (Return h, db') =>
        db' = db ∧ h ≠ []
        ∧ ∀ r, In r h
               ↔ In r (borrow_requests db) ∧ models.BorrowRequest.user_id r = user_id
    | (Raise e, db') => db' = db ∧ e = no_borrow_history
    end.
Proof.
  intros Hadmin.
  unfold admin.view_user_borrow_history, crud.get_user_borrow_history, query_all.
  rewrite Hadmin. unfold mbind, M_bind. simpl.
  destruct (List.filter _ (borrow_requests db)) as [|x h] eqn:E; simpl.
  - split; [|done]. split; [|done]. intros _ r Hin Hr.
    assert (In r []) as []. rewrite <- E. apply filter_In. split; [done|].
    by apply Z.eqb_eq.
  - split.
    + split; [done|]. intros Hno.
      assert (In x (List.filter
                      (λ r, models.BorrowRequest.user_id r =? user_id)
                      (borrow_requests db))) as Hx by (rewrite E; by left).
      apply filter_In in Hx as [Hin Hx%Z.eqb_eq]. by destruct (Hno x Hin).
    + split; [done|]. split; [done|]. intros r.
      rewrite <- Z.eqb_eq.
      rewrite <- (filter_In (λ r, models.BorrowRequest.user_id r =? user_id)).
      by rewrite E.
Qed.

Lemma view_user_borrow_history_empty_witness :
  ((admin.view_user_borrow_history 1 Fixture.root Fixture.db_overlap).1
     = Raise no_borrow_history
   ↔ ∀ r, In r (borrow_requests Fixture.db_overlap) → models.BorrowRequest.user_id r ≠ 1)
  ∧ match admin.view_user_borrow_history 1 Fixture.root Fixture.db_overlap with
    | (Return h, db') =>
        db' = Fixture.db_overlap ∧ h ≠ []
        ∧ ∀ r, In r h
               ↔ In r (borrow_requests Fixture.db_overlap)
                 ∧ models.BorrowRequest.user_id r = 1
    | (Raise e, db') => db' = Fixture.db_overlap ∧ e = no_borrow_history
    end.
Proof.
  apply (view_user_borrow_history_empty 1 Fixture.root Fixture.db_overlap).
  reflexivity.
Defined.

Lemma approved_table_other request_id (table : list models.BorrowRequest.t) :
  (∀ r, In r table → models.BorrowRequest.id r ≠ request_id) →
  approved_table request_id table = table.
Proof.
  induction table as [|r table IH]; simpl; [done|]. intros Hne.
  destruct (Z.eqb_spec (models.BorrowRequest.id r) request_id) as [E|_].
  - destruct (Hne r); auto.
  - rewrite IH; auto.
Qed.

Lemma find_id_other request_id (table : list models.BorrowRequest.t) :
  (∀ r, In r table → models.BorrowRequest.id r ≠ request_id) →
  find (λ r, models.BorrowRequest.id r =? request_id) table = None.
Proof.
  intros Hne. apply find_None_all. intros r Hin. apply Z.eqb_neq. auto.
Qed.

Lemma approved_table_new (table : list models.BorrowRequest.t) r :
  (∀ r0, In r0 table → models.BorrowRequest.id r0 ≠ models.BorrowRequest.id r) →
  approved_table (models.BorrowRequest.id r) (table ++ [r])
  = (table ++ [admin.set_status "approved" r])%list.
Proof.
  intros Hne. unfold approved_table. rewrite map_app. simpl.
  rewrite Z.eqb_refl. f_equal. by apply approved_table_other.
Qed.

(** X14: a request that [borrow_request] has just returned can be approved
    by an admin under the id it was given; the approval changes that row
    only, and [view_borrow_requests] then lists the earlier requests as they
    were, followed by the new one with status "approved". *)
Theorem borrow_approve_list request current_user admin_user db r db1 :
  models.User.is_admin admin_user = true →
  user.borrow_request request current_user db = (Return r, db1) →
  ∃ db2,
    admin.approve_request (models.BorrowRequest.id r) admin_user db1
    = (Return (admin.set_status "approved" r), db2)
    ∧ admin.view_borrow_requests admin_user db2
      = (Return (borrow_requests db ++ [admin.set_status "approved" r])%list, db2).
Proof.
  intros Hadmin (_ & _ & -> & ->)%borrow_request_Return.
  set (r := pending_row request current_user db).
  assert (∀ r0, In r0 (borrow_requests db) →
                models.BorrowRequest.id r0 ≠ models.BorrowRequest.id r) as Hfresh
    by (intros r0 Hin; by apply pending_row_fresh).
  eexists. rewrite approve_request_run by done.
  cbn [borrow_requests users books].
  rewrite find_app_None by by apply find_id_other.
  rewrite Z.eqb_refl, approved_table_new by done.
  split; [reflexivity|].
  unfold admin.view_borrow_requests, query_all. rewrite Hadmin.
  cbn [negb borrow_requests]. by rewrite filter_all.
Qed.

Lemma borrow_approve_list_witness :
  ∃ db2,
    admin.approve_request
      (models.BorrowRequest.id
         (pending_row (Fixture.ask 1 20 25) Fixture.alice Fixture.db_approved))
      Fixture.root
      (user.borrow_request (Fixture.ask 1 20 25) Fixture.alice Fixture.db_approved).2
    = (Return (admin.set_status "approved"
                 (pending_row (Fixture.ask 1 20 25) Fixture.alice Fixture.db_approved)),
       db2)
    ∧ admin.view_borrow_requests Fixture.root db2
      = (Return (borrow_requests Fixture.db_approved
                 ++ [admin.set_status "approved"
                       (pending_row (Fixture.ask 1 20 25) Fixture.alice
                          Fixture.db_approved)])%list,
         db2).
Proof.
  apply (borrow_approve_list (Fixture.ask 1 20 25) Fixture.alice Fixture.root
           Fixture.db_approved).
  - reflexivity.
  - reflexivity.
Defined.

Lemma pending_row_not_overlapping request request' current_user db :
  user.overlapping request' (pending_row request current_user db) = false.
Proof.
  unfold user.overlapping, pending_row. simpl.
  by rewrite andb_false_r.
Qed.

(** X15: pending requests never block one another. When [borrow_request]
    has admitted a request, the same request filed again, by the same or
    another caller, is admitted again as a further pending row with an id of
    its own. *)
Theorem pending_never_blocks request current_user other_user db r db1 :
  user.borrow_request request current_user db = (Return r, db1) →
  ∃ r',
    user.borrow_request request other_user db1
    = (Return r', mkSession (users db1) (books db1) (borrow_requests db1 ++ [r']))
    ∧ models.BorrowRequest.id r' ≠ models.BorrowRequest.id r
    ∧ models.BorrowRequest.status r' = "pending"
    ∧ models.BorrowRequest.book_id r' = models.BorrowRequest.book_id r
    ∧ models.BorrowRequest.start_date r' = models.BorrowRequest.start_date r
    ∧ models.BorrowRequest.end_date r' = models.BorrowRequest.end_date r.
Proof.
  intros ([b Hb] & Hnone & -> & ->)%borrow_request_Return.
  eexists. rewrite borrow_request_run. simpl. rewrite Hb.
  rewrite find_app_None by done.
  rewrite pending_row_not_overlapping.
  split; [reflexivity|]. split; [|done].
  intros Heq.
  pose proof (pending_row_fresh request other_user
                (mkSession (users db) (books db)
                   (borrow_requests db ++ [pending_row request current_user db]))
                (pending_row request current_user db)) as Hfresh.
  apply Hfresh; [|by symmetry].
  simpl. apply in_or_app. right. by left.
Qed.

Lemma pending_never_blocks_witness :
  ∃ r',
    user.borrow_request (Fixture.ask 1 20 25) Fixture.root db_filed
    = (Return r',
       mkSession (users db_filed) (books db_filed) (borrow_requests db_filed ++ [r']))
    ∧ models.BorrowRequest.id r' ≠ models.BorrowRequest.id filed_20_25
    ∧ models.BorrowRequest.status r' = "pending"
    ∧ models.BorrowRequest.book_id r' = models.BorrowRequest.book_id filed_20_25
    ∧ models.BorrowRequest.start_date r' = models.BorrowRequest.start_date filed_20_25
    ∧ models.BorrowRequest.end_date r' = models.BorrowRequest.end_date filed_20_25.
Proof.
  apply (pending_never_blocks (Fixture.ask 1 20 25) Fixture.alice Fixture.root
           Fixture.db_approved filed_20_25 db_filed).
  reflexivity.
Defined.

(** ** What the handlers keep *)

(** X16: however it ends, [borrow_request] leaves the users, the books and
    the approved requests exactly as they were: all it can add is one
    pending row. Only an approval changes which periods are approved. *)
Theorem borrow_request_keeps_approved request current_user db :
  users (user.borrow_request request current_user db).2 = users db
  ∧ books (user.borrow_request request current_user db).2 = books db
  ∧ List.filter is_approved
      (borrow_requests (user.borrow_request request current_user db).2)
    = List.filter is_approved (borrow_requests db).
Proof.
  rewrite borrow_request_run.
  destruct (find _ (books db)); [|done].
  destruct (find _ (borrow_requests db)); [done|]. simpl.
  repeat (split; [done|]).
  rewrite List.filter_app. simpl. apply app_nil_r.
Qed.

(** X17: the single-admin guard of [create_admin_user] does not bound the
    number of admins. After the first admin is created on a store without
    one, that admin's [create_user] for a free email stores a second user
    with [is_admin = true], whatever the body says. *)
Theorem second_admin_through_create_user user user' db :
  ¬ admin_exists db →
  ¬ email_taken (schemas.UserCreate.email user) db →
  ¬ email_taken (schemas.UserCreate.email user') db →
  schemas.UserCreate.email user' ≠ schemas.UserCreate.email user →
  ∃ a db1 u db2,
    admin.create_admin_user user db = (Return a, db1)
    ∧ admin.create_user user' a db1 = (Return u, db2)
    ∧ users db2 = (users db ++ [a; u])%list
    ∧ models.User.is_admin a = true
    ∧ models.User.is_admin u = true
    ∧ models.User.email u = schemas.UserCreate.email user'.
Proof.
  intros Hno Hfree Hfree' Hne. eexists _, _, _, _.
  unfold admin.create_admin_user. run_handler.
  rewrite (no_admin_lookup db Hno). unfold crud.create_user.
  rewrite add_user_free by done. split; [reflexivity|].
  unfold admin.create_user, crud.create_user. simpl.
  rewrite add_user_free.
  - split; [reflexivity|]. simpl. by rewrite <- app_assoc.
  - intros [x [Hin Hx]]. simpl in Hin. apply in_app_or in Hin as [Hin|[<-|[]]].
    + apply Hfree'. by exists x.
    + simpl in Hx. by destruct Hne.
Qed.

Lemma second_admin_through_create_user_witness :
  ∃ a db1 u db2,
    admin.create_admin_user
      (schemas.UserCreate.make "root@example.com" "hunter2" true)
      (mkSession [] [] [])
    = (Return a, db1)
    ∧ admin.create_user Fixture.bob_body a db1 = (Return u, db2)
    ∧ users db2 = ([] ++ [a; u])%list
    ∧ models.User.is_admin a = true
    ∧ models.User.is_admin u = true
    ∧ models.User.email u = "bob@example.com".
Proof.
  apply (second_admin_through_create_user
           (schemas.UserCreate.make "root@example.com" "hunter2" true)
           Fixture.bob_body (mkSession [] [] [])).
  - by intros [u [[] _]].
  - by intros [u [[] _]].
  - by intros [u [[] _]].
  - discriminate.
Defined.

Lemma NoDup_snoc {T} (l : list T) (x : T) :
  NoDup l → ¬ In x l → NoDup (l ++ [x]).
Proof.
  intros Hl Hx. apply NoDup_app. split; [done|]. split.
  - intros y Hy ->%list_elem_of_singleton. by apply list_elem_of_In in Hy.
  - apply NoDup_singleton.
Qed.

Lemma approved_table_ids request_id (table : list models.BorrowRequest.t) :
  map models.BorrowRequest.id (approved_table request_id table)
  = map models.BorrowRequest.id table.
Proof.
  unfold approved_table. rewrite map_map. apply map_ext. intros r.
  by destruct (models.BorrowRequest.id r =? request_id).
Qed.

Lemma add_user_keeps_keys email password is_admin db :
  keys_unique db → keys_unique (add_user email password is_admin db).2.
Proof.
  intros (He & Hu & Hb & Hr). unfold add_user.
  destruct (existsb _ _) eqn:E; [done|]. simpl.
  unfold keys_unique. simpl. rewrite !map_app. simpl.
  split; [|split; [|done]].
  - apply NoDup_snoc; [done|]. intros [u [Hu' Hin]]%in_map_iff.
    assert (existsb (λ u, String.eqb (models.User.email u) email) (users db) = true)
      as Ht; [|by rewrite Ht in E].
    apply existsb_exists. exists u. split; [done|]. by apply String.eqb_eq.
  - apply NoDup_snoc; [done|]. apply next_id_fresh.
Qed.

(** X18: the handlers that write keep the keys apart. On a store whose
    emails and ids are pairwise distinct, they still are after
    [create_admin_user], [create_user], [add_book], [borrow_request] and
    [approve_request], however each call ends. *)
Theorem handlers_keep_keys_unique db user book request request_id current_user :
  keys_unique db →
  keys_unique (admin.create_admin_user user db).2
  ∧ keys_unique (admin.create_user user current_user db).2
  ∧ keys_unique (admin.add_book book current_user db).2
  ∧ keys_unique (user.borrow_request request current_user db).2
  ∧ keys_unique (admin.approve_request request_id current_user db).2.
Proof.
  intros Hk. pose proof Hk as (He & Hu & Hb & Hr).
  split; [|split; [|split; [|split]]].
  - unfold admin.create_admin_user. run_handler.
    destruct (find _ (users db)); [done|]. by apply add_user_keeps_keys.
  - unfold admin.create_user.
    destruct (models.User.is_admin current_user); [|done].
    by apply add_user_keeps_keys.
  - unfold admin.add_book, add_book_row.
    destruct (models.User.is_admin current_user); [|done]. simpl.
    destruct (integer_fits _); [|done].
    unfold keys_unique. simpl. rewrite map_app. simpl.
    repeat (split; [done|]). split; [|done].
    apply NoDup_snoc; [done|]. apply next_id_fresh.
  - rewrite borrow_request_run.
    destruct (find _ (books db)); [|done].
    destruct (find _ (borrow_requests db)); [done|]. simpl.
    unfold keys_unique. simpl. rewrite map_app. simpl.
    repeat (split; [done|]).
    apply NoDup_snoc; [done|]. apply next_id_fresh.
  - destruct (models.User.is_admin current_user) eqn:Hadmin.
    + rewrite approve_request_run by done.
      destruct (find _ (borrow_requests db)); [|done]. simpl.
      unfold keys_unique. simpl. by rewrite approved_table_ids.
    + unfold admin.approve_request. by rewrite Hadmin.
Qed.

Lemma handlers_keep_keys_unique_witness :
  keys_unique (admin.create_admin_user Fixture.bob_body Fixture.db_overlap).2
  ∧ keys_unique (admin.create_user Fixture.bob_body Fixture.root Fixture.db_overlap).2
  ∧ keys_unique
      (admin.add_book (schemas.BookCreate.make "U" "B" 2) Fixture.root
         Fixture.db_overlap).2
  ∧ keys_unique
      (user.borrow_request (Fixture.ask 1 20 25) Fixture.root Fixture.db_overlap).2
  ∧ keys_unique (admin.approve_request 2 Fixture.root Fixture.db_overlap).2.
Proof.
  apply (handlers_keep_keys_unique Fixture.db_overlap).
  unfold keys_unique. simpl.
  repeat split; apply (bool_decide_unpack _); by vm_compute.
Defined.

(** ** Resolving the caller: [get_current_user] *)

Ltac run_outcome := unfold mbind, outcome_bind; simpl.

Lemma to_int_Raise {platform : Platform} v e :
  jwt.to_int v = Raise e → e = ValueError ∨ e = TypeError ∨ e = OverflowError.
Proof.
  destruct v as [ s | n | b | [ t | | ] | | ]; simpl; try (intros [= <-]; auto); try done.
  destruct (int_of_text s); [done|]. intros [= <-]. auto.
Qed.

Lemma time_claim_Return {platform : Platform} claims k o :
  jwt.time_claim claims k = Return o →
  match o with
  | None => claims !! k = None
  | Some n => ∃ v, claims !! k = Some v ∧ jwt.to_int v = Return n
  end.
Proof.
  unfold jwt.time_claim. destruct (claims !! k) as [v|]; [|by intros [= <-]].
  destruct (jwt.to_int v) as [n|e] eqn:E; [intros [= <-]; eauto|].
  by destruct e.
Qed.

Lemma time_claim_Raise {platform : Platform} claims k e :
  jwt.time_claim claims k = Raise e →
  e = JWTClaimsError
  ∨ ((e = TypeError ∨ e = OverflowError)
     ∧ ∃ v, claims !! k = Some v ∧ jwt.to_int v = Raise e).
Proof.
  unfold jwt.time_claim. destruct (claims !! k) as [v|]; [|done].
  destruct (jwt.to_int v) as [n|e'] eqn:E; [done|].
  destruct (to_int_Raise v e' E) as [-> | [-> | ->]]; intros [= <-]; eauto 10.
Qed.

Lemma time_claim_converts {platform : Platform} claims k e :
  converts (claims !! k) → jwt.time_claim claims k = Raise e → e = JWTClaimsError.
Proof.
  unfold jwt.time_claim, converts.
  destruct (claims !! k) as [ [ s | n | b | [ t | | ] | | ] | ]; simpl; try done.
  - destruct (int_of_text s); [done|]. by intros _ [= <-].
  - by intros _ [= <-].
Qed.

Lemma validate_iat_Raise {platform : Platform} claims e :
  jwt.validate_iat claims = Raise e →
  is_JWTError e = true ∨ int_crash claims e.
Proof.
  unfold jwt.validate_iat.
  destruct (jwt.time_claim claims "iat") eqn:E; [done|]. run_outcome.
  intros [= <-]. apply time_claim_Raise in E as [-> | [He (v & Hv & Hint)]]; [by left|].
  right. split; [done|]. exists "iat", v. split; [by left|done].
Qed.

Lemma validate_nbf_Return {platform : Platform} claims now u :
  jwt.validate_nbf claims now = Return u →
  ∀ n, claims !! "nbf" = Some (JInt n) → n ≤ now.
Proof.
  unfold jwt.validate_nbf.
  destruct (jwt.time_claim claims "nbf") as [o|] eqn:E; [|done]. run_outcome.
  apply time_claim_Return in E. intros Hret n Hn.
  destruct o as [m|]; [|congruence].
  destruct E as (v & Hv & Hint). rewrite Hn in Hv. injection Hv as <-.
  simpl in Hint. injection Hint as <-.
  by destruct (Z.ltb_spec now n); [|lia].
Qed.

Lemma validate_nbf_Raise {platform : Platform} claims now e :
  jwt.validate_nbf claims now = Raise e →
  is_JWTError e = true ∨ int_crash claims e.
Proof.
  unfold jwt.validate_nbf.
  destruct (jwt.time_claim claims "nbf") as [o|] eqn:E; run_outcome.
  - destruct o as [n|]; [|done]. destruct (now <? n); [|done].
    intros [= <-]. by left.
  - intros [= <-]. apply time_claim_Raise in E as [-> | [He (v & Hv & Hint)]]; [by left|].
    right. split; [done|]. exists "nbf", v. split; [right; by left|done].
Qed.

Lemma validate_exp_Return {platform : Platform} claims now u :
  jwt.validate_exp claims now = Return u →
  ∀ n, claims !! "exp" = Some (JInt n) → now ≤ n.
Proof.
  unfold jwt.validate_exp.
  destruct (jwt.time_claim claims "exp") as [o|] eqn:E; [|done]. run_outcome.
  apply time_claim_Return in E. intros Hret n Hn.
  destruct o as [m|]; [|congruence].
  destruct E as (v & Hv & Hint). rewrite Hn in Hv. injection Hv as <-.
  simpl in Hint. injection Hint as <-.
  by destruct (Z.ltb_spec n now); [|lia].
Qed.

Lemma validate_exp_Raise {platform : Platform} claims now e :
  jwt.validate_exp claims now = Raise e →
  is_JWTError e = true ∨ int_crash claims e.
Proof.
  unfold jwt.validate_exp.
  destruct (jwt.time_claim claims "exp") as [o|] eqn:E; run_outcome.
  - destruct o as [n|]; [|done]. destruct (n <? now); [|done].
    intros [= <-]. by left.
  - intros [= <-]. apply time_claim_Raise in E as [-> | [He (v & Hv & Hint)]]; [by left|].
    right. split; [done|]. exists "exp", v. split; [right; right; by left|done].
Qed.

Lemma validate_aud_Return claims u :
  jwt.validate_aud claims = Return u → claims !! "aud" = None.
Proof. unfold jwt.validate_aud. by destruct (claims !! "aud"). Qed.

Lemma validate_sub_Return claims u :
  jwt.validate_sub claims = Return u →
  claims !! "sub" = None ∨ ∃ s, claims !! "sub" = Some (JStr s).
Proof.
  unfold jwt.validate_sub. destruct (claims !! "sub") as [[]|]; try done; eauto.
Qed.

Lemma validate_rest_Raise claims e :
  jwt.validate_aud claims = Raise e ∨ jwt.validate_sub claims = Raise e
  ∨ jwt.validate_jti claims = Raise e ∨ jwt.validate_at_hash claims = Raise e →
  e = JWTClaimsError.
Proof.
  unfold jwt.validate_aud, jwt.validate_sub, jwt.validate_jti, jwt.validate_at_hash.
  intros [H|[H|[H|H]]]; revert H.
  - by destruct (claims !! "aud"); intros [= <-].
  - by destruct (claims !! "sub") as [[]|]; intros [= <-].
  - by destruct (claims !! "jti") as [[]|]; intros [= <-].
  - by destruct (claims !! "at_hash"); intros [= <-].
Qed.

(** What [decode] has checked of a token whose payload it returns. *)
Lemma decode_Return {signer : Signer} {platform : Platform} tok key algorithms clk payload :
  jwt.decode tok key algorithms clk = Return payload →
  payload = tok_claims tok
  ∧ tok_alg tok ∈ algorithms
  ∧ tok_signature tok = hmac key (tok_alg tok) (tok_claims tok)
  ∧ (∀ e, tok_claims tok !! "exp" = Some (JInt e) → utc_now clk ≤ e)
  ∧ (∀ n, tok_claims tok !! "nbf" = Some (JInt n) → n ≤ utc_now clk)
  ∧ tok_claims tok !! "aud" = None
  ∧ (tok_claims tok !! "sub" = None ∨ ∃ s, tok_claims tok !! "sub" = Some (JStr s)).
Proof.
  unfold jwt.decode.
  destruct (bool_decide_reflect (tok_alg tok ∈ algorithms)) as [Halg|]; [|done].
  destruct (String.eqb_spec (tok_signature tok)
              (hmac key (tok_alg tok) (tok_claims tok))) as [Hsig|]; [|done].
  simpl.
  destruct (jwt.validate_iat _) as [u1|] eqn:E1; run_outcome; [|done].
  destruct (jwt.validate_nbf _ _) as [u2|] eqn:E2; run_outcome; [|done].
  destruct (jwt.validate_exp _ _) as [u3|] eqn:E3; run_outcome; [|done].
  destruct (jwt.validate_aud _) as [u4|] eqn:E4; run_outcome; [|done].
  destruct (jwt.validate_sub _) as [u5|] eqn:E5; run_outcome; [|done].
  destruct (jwt.validate_jti _) as [u6|] eqn:E6; run_outcome; [|done].
  destruct (jwt.validate_at_hash _) as [u7|] eqn:E7; run_outcome; [|done].
  intros [= <-].
  repeat (split; [done|]).
  split; [by eapply validate_exp_Return|].
  split; [by eapply validate_nbf_Return|].
  split; [by eapply validate_aud_Return|]. by eapply validate_sub_Return.
Qed.

(** An exception [decode] raises is a [JWTError], unless the token is
    verified and [int()] fails on one of its time claims. *)
Lemma decode_Raise {signer : Signer} {platform : Platform} tok clk e :
  jwt.decode tok auth.SECRET_KEY [auth.ALGORITHM] clk = Raise e →
  is_JWTError e = true ∨ (verified tok ∧ int_crash (tok_claims tok) e).
Proof.
  unfold jwt.decode.
  destruct (bool_decide_reflect (tok_alg tok ∈ [auth.ALGORITHM])) as [Halg|];
    [|intros [= <-]; by left].
  destruct (String.eqb_spec (tok_signature tok)
              (hmac auth.SECRET_KEY (tok_alg tok) (tok_claims tok))) as [Hsig|];
    [|intros [= <-]; by left].
  apply list_elem_of_singleton in Halg. simpl.
  assert (∀ e, is_JWTError e = true ∨ int_crash (tok_claims tok) e →
               is_JWTError e = true ∨ (verified tok ∧ int_crash (tok_claims tok) e))
    as Hv by (intros ? [|]; [by left|right; split; [by split|done]]).
  destruct (jwt.validate_iat _) as [u1|] eqn:E1; run_outcome;
    [|intros [= <-]; by apply Hv, validate_iat_Raise].
  destruct (jwt.validate_nbf _ _) as [u2|] eqn:E2; run_outcome;
    [|intros [= <-]; eapply Hv, validate_nbf_Raise; done].
  destruct (jwt.validate_exp _ _) as [u3|] eqn:E3; run_outcome;
    [|intros [= <-]; eapply Hv, validate_exp_Raise; done].
  destruct (jwt.validate_aud _) as [u4|] eqn:E4; run_outcome;
    [|intros [= <-]; left; rewrite (validate_rest_Raise _ _ (or_introl E4)); done].
  destruct (jwt.validate_sub _) as [u5|] eqn:E5; run_outcome;
    [|intros [= <-]; left;
      rewrite (validate_rest_Raise _ _ (or_intror (or_introl E5))); done].
  destruct (jwt.validate_jti _) as [u6|] eqn:E6; run_outcome;
    [|intros [= <-]; left;
      rewrite (validate_rest_Raise _ _ (or_intror (or_intror (or_introl E6)))); done].
  destruct (jwt.validate_at_hash _) as [u7|] eqn:E7; run_outcome; [done|].
  intros [= <-]; left.
  by rewrite (validate_rest_Raise _ _ (or_intror (or_intror (or_intror E7)))).
Qed.

(** [get_current_user] by the outcome of [decode] and of the lookup. *)
Lemma get_current_user_run {signer : Signer} {platform : Platform} tok clk db :
  auth.get_current_user tok clk db =
  match jwt.decode tok auth.SECRET_KEY [auth.ALGORITHM] clk with
  | Raise e =>
    if is_JWTError e then (Raise auth.credentials_exception, db) else (Raise e, db)
  | Return payload =>
    match payload !! "sub" with
    | None | Some JNull => (Raise auth.credentials_exception, db)
    | Some user_id =>
      match id_operand user_id with
      | None => (Raise DBAPIError, db)
      | Some matches =>
        match find (λ u, matches (models.User.id u)) (users db) with
        | None => (Raise auth.credentials_exception, db)
        | Some u => (Return u, db)
        end
      end
    end
  end.
Proof.
  unfold auth.get_current_user.
  destruct (jwt.decode _ _ _ _) as [payload|e]; [|by destruct (is_JWTError e)].
  destruct (payload !! "sub") as [[]|]; try done;
    (destruct (id_operand _); [|done];
     unfold mbind, M_bind, query_first; by destruct (find _ (users db))).
Qed.

(** X1: [get_current_user] never changes the store. The user it returns is
    a stored one; the token is then verified (algorithm HS256, signature of
    its payload under the secret key), its subject is a string that the
    engine matches with that user's id, it carries no audience, and an
    integer "exp" or "nbf" it carries is not before, respectively not after,
    the current time. It raises the 401 "Could not validate credentials";
    the only other exceptions are, for a verified token, the one [int()]
    raises on a time claim that is no number ([TypeError], [OverflowError])
    and the engine's refusal of the subject. A token that is not verified
    always gets the 401. *)
Theorem get_current_user_sound {signer : Signer} {platform : Platform} tok clk db :
  (auth.get_current_user tok clk db).2 = db
  ∧ match (auth.get_current_user tok clk db).1 with
    | Return u =>
        In u (users db)
        ∧ verified tok
        ∧ (∃ sub matches,
             tok_claims tok !! "sub" = Some (JStr sub)
             ∧ id_operand (JStr sub) = Some matches
             ∧ matches (models.User.id u) = true)
        ∧ tok_claims tok !! "aud" = None
        ∧ (∀ e, tok_claims tok !! "exp" = Some (JInt e) → utc_now clk ≤ e)
        ∧ (∀ n, tok_claims tok !! "nbf" = Some (JInt n) → n ≤ utc_now clk)
    | Raise e =>
        e = auth.credentials_exception
        ∨ (verified tok ∧ int_crash (tok_claims tok) e)
        ∨ (verified tok ∧ e = DBAPIError
           ∧ ∃ sub, tok_claims tok !! "sub" = Some (JStr sub)
                    ∧ id_operand (JStr sub) = None)
    end.
Proof.
  rewrite get_current_user_run.
  destruct (jwt.decode _ _ _ _) as [payload|e] eqn:E.
  - apply decode_Return in E as (-> & Halg & Hsig & Hexp & Hnbf & Haud & Hsub).
    apply list_elem_of_singleton in Halg.
    destruct (tok_claims tok !! "sub") as [v|] eqn:Es; [|simpl; by auto].
    destruct Hsub as [|[sub [= ->]]]; [done|].
    destruct (id_operand (JStr sub)) as [matches|] eqn:Hop.
    + destruct (find _ (users db)) as [u|] eqn:Ef; [|simpl; by auto]. simpl.
      apply find_some in Ef as [Hin Hid].
      split; [done|]. split; [done|]. split; [done|]. split; [eauto|]. done.
    + simpl. split; [done|]. right. right.
      split; [by split|]. split; [done|]. by exists sub.
  - apply decode_Raise in E as [HJ|[Hv Hcrash]].
    + rewrite HJ. simpl. auto.
    + destruct (is_JWTError e); simpl; [by auto|].
      split; [done|]. right. left. by split.
Qed.

Lemma decode_expired {signer : Signer} {platform : Platform} tok key algorithms clk e :
  tok_claims tok !! "exp" = Some (JInt e) →
  e < utc_now clk →
  converts (tok_claims tok !! "iat") →
  converts (tok_claims tok !! "nbf") →
  ∃ err, jwt.decode tok key algorithms clk = Raise err ∧ is_JWTError err = true.
Proof.
  intros Hexp Hlt Hiat Hnbf. unfold jwt.decode.
  destruct (bool_decide _); simpl; [|eauto].
  destruct (String.eqb _ _); simpl; [|eauto].
  unfold jwt.validate_iat.
  destruct (jwt.time_claim (tok_claims tok) "iat") as [o1|e1] eqn:E1; run_outcome;
    [|rewrite (time_claim_converts _ _ _ Hiat E1); eauto].
  unfold jwt.validate_nbf.
  destruct (jwt.time_claim (tok_claims tok) "nbf") as [o2|e2] eqn:E2; run_outcome;
    [|rewrite (time_claim_converts _ _ _ Hnbf E2); eauto].
  assert (jwt.validate_exp (tok_claims tok) (utc_now clk) = Raise ExpiredSignatureError)
    as Hx.
  { unfold jwt.validate_exp, jwt.time_claim. rewrite Hexp. run_outcome.
    by destruct (Z.ltb_spec e (utc_now clk)); [|lia]. }
  destruct o2 as [n|]; [destruct (utc_now clk <? n); [eauto|]|];
    rewrite Hx; run_outcome; eauto.
Qed.

(** X2: a token whose integer "exp" is before the current time is answered
    with the 401 and the store is left alone, whoever is stored and whatever
    else the token holds, provided [int()] does not fail on its "iat" and
    "nbf" claims (which it cannot when they are absent or integers). *)
Theorem expired_token_rejected {signer : Signer} {platform : Platform} tok clk db e :
  tok_claims tok !! "exp" = Some (JInt e) →
  e < utc_now clk →
  converts (tok_claims tok !! "iat") →
  converts (tok_claims tok !! "nbf") →
  auth.get_current_user tok clk db = (Raise auth.credentials_exception, db).
Proof.
  intros Hexp Hlt Hiat Hnbf. rewrite get_current_user_run.
  destruct (decode_expired tok auth.SECRET_KEY [auth.ALGORITHM] clk e)
    as (err & -> & ->); done.
Qed.

Lemma expired_token_rejected_witness :
  auth.get_current_user (signer := Fixture.toy_signer)
    (platform := Fixture.toy_platform)
    (alice_token (Fixture.jan 5)) Fixture.noon Fixture.db_pending
  = (Raise auth.credentials_exception, Fixture.db_pending).
Proof.
  apply (expired_token_rejected (signer := Fixture.toy_signer)
           (platform := Fixture.toy_platform) _ _ _ (Fixture.jan 5)).
  - apply lookup_insert_eq.
  - reflexivity.
  - unfold alice_token. simpl.
    rewrite lookup_insert_ne, lookup_singleton_ne by done. exact I.
  - unfold alice_token. simpl.
    rewrite lookup_insert_ne, lookup_singleton_ne by done. exact I.
Defined.

(** The same token with an expiry that has not passed resolves to Alice:
    the signature verifies, and the expiry alone decides above. *)
Example unexpired_token_resolves :
  auth.get_current_user (signer := Fixture.toy_signer)
    (platform := Fixture.toy_platform)
    (alice_token (Fixture.jan 6)) Fixture.noon Fixture.db_pending
  = (Return Fixture.alice, Fixture.db_pending).
Proof.
  unfold alice_token, auth.get_current_user.
  rewrite (decode_subject_expiry (signer := Fixture.toy_signer)
             (platform := Fixture.toy_platform) "2" (Fixture.jan 6) Fixture.noon)
    by (vm_compute; discriminate).
  by rewrite lookup_insert_ne, lookup_singleton_eq.
Qed.

(** A verified token whose "iat" is null: [int(None)] raises a [TypeError]
    that nothing catches. *)
Example null_iat_crashes :
  auth.get_current_user (signer := Fixture.toy_signer)
    (platform := Fixture.toy_platform)
    (mkToken "HS256" (<["iat" := JNull]> {["sub" := JStr "2"]})
       (hmac (Signer := Fixture.toy_signer) auth.SECRET_KEY "HS256"
          (<["iat" := JNull]> {["sub" := JStr "2"]})))
    Fixture.noon Fixture.db_pending
  = (Raise TypeError, Fixture.db_pending).
Proof.
  unfold auth.get_current_user, jwt.decode, jwt.validate_iat, jwt.time_claim. simpl.
  by rewrite lookup_insert_eq.
Qed.
